(** * DiscordTwitchBot: the twitch session, its channel registry and monitor

    A shallow embedding of [twitch/twitch.go].  Go maps are finite maps
    ([gmap]), slices are lists, [time.Time] is an integer count of
    nanoseconds since the zero instant, and everything the code obtains
    from outside (the helix client's answers, the clock, the outcome of a
    disk write) is an explicit argument of the operation that asks for it.
    The package level variable [guildStatus] is passed to the operations
    that read it. *)

From stdpp Require Import gmap strings list fin_maps.
From Stdlib Require Import ZArith Lia.

Local Open Scope Z_scope.

(** ** Package [time] *)

Module time.

(** Nanoseconds since January 1, year 1, 00:00:00 UTC; the zero value of
    [time.Time] is that instant. *)
Definition Time := Z.

(** [time.Duration] is an [int64] count of nanoseconds. *)
Definition Duration := Z.

Definition zero : Time := 0.

Definition IsZero (t : Time) : bool := bool_decide (t = 0).

Definition minDuration : Duration := - 2 ^ 63.
Definition maxDuration : Duration := 2 ^ 63 - 1.

(** [t.Sub(u)]: the difference, or the largest (smallest) duration when
    the difference does not fit. *)
Definition Sub (t u : Time) : Duration :=
  if maxDuration <? t - u then maxDuration
  else if t - u <? minDuration then minDuration
  else t - u.

(** [time.Since(t)] is [time.Now().Sub(t)]. *)
Definition Since (now t : Time) : Duration := Sub now t.

End time.

(** ** Package [constants] and the errors that reach the callers *)

Inductive error :=
  | ErrEmptyAccessToken
  | ErrTwitchUserDoesNotExist
  | ErrInvalidToken
  | ErrTwitchUserRegistered
  | ErrNotExist
  | ErrOther (msg : string).

(** ** The helix client, as far as the session uses it *)

Module helix.

Record ValidateTokenResponse := {
  isValid : bool;
  StatusCode : Z;
  validateErr : option error
}.

Record AppAccessTokenResponse := {
  AccessToken : string;
  tokenErr : option error
}.

Record User := {
  DisplayName : string;
  ProfileImageURL : string
}.

Record UsersResponse := {
  Users : list User;
  usersErr : option error
}.

Record Stream := {
  UserLogin : string;
  Type_ : string;
  Title : string;
  GameID : string;
  ThumbnailURL : string;
  StartedAt : time.Time
}.

Record StreamsResponse := {
  Streams : list Stream;
  streamsErr : option error
}.

(** What twitch answers during one operation of the session. *)
Record Client := {
  ValidateToken : string → ValidateTokenResponse;
  RequestAppAccessToken : AppAccessTokenResponse;
  GetUsers : list string → UsersResponse;
  GetStreams : list string → StreamsResponse
}.

End helix.

(** ** Data model *)

Record discordChannel := {
  ChannelID : string;
  LiveNotificationSent : bool
}.

Record twitchChannelInfo := {
  DisplayName : string;
  LogoURL : string;
  StreamTitle : string;
  GameID : string;
  ThumbnailURL : string;
  StartTime : time.Time;
  EndTime : time.Time;
  DiscordChannels : gmap string (list discordChannel)
}.

(** [client] of the source is split in two: the token the client holds is
    state of the session, the answers of twitch are in [helix.Client]. *)
Record Session := {
  name : string;
  appAccessToken : string;
  isConnected : bool;
  twitchData : gmap string twitchChannelInfo
}.

(** The files of [constants.DataPath], by session name. *)
Abbreviation Disk := (gmap string (gmap string twitchChannelInfo)).

#[global] Instance discordChannel_eq_dec : EqDecision discordChannel.
Proof. solve_decision. Defined.

#[global] Instance twitchChannelInfo_eq_dec : EqDecision twitchChannelInfo.
Proof. solve_decision. Defined.

Definition withDiscordChannels (dcs : gmap string (list discordChannel))
    (i : twitchChannelInfo) : twitchChannelInfo :=
  {| DisplayName := DisplayName i; LogoURL := LogoURL i;
     StreamTitle := StreamTitle i; GameID := GameID i;
     ThumbnailURL := ThumbnailURL i; StartTime := StartTime i;
     EndTime := EndTime i; DiscordChannels := dcs |}.

Definition withTwitchData (td : gmap string twitchChannelInfo) (t : Session) : Session :=
  {| name := name t; appAccessToken := appAccessToken t;
     isConnected := isConnected t; twitchData := td |}.

Definition withConnected (b : bool) (t : Session) : Session :=
  {| name := name t; appAccessToken := appAccessToken t;
     isConnected := b; twitchData := twitchData t |}.

(** The slice a Go map read yields: [nil] for a missing key. *)
Definition channelsOf (i : twitchChannelInfo) (guild : string) : list discordChannel :=
  default [] (DiscordChannels i !! guild).

(** ** Persistence *)

(** Modelled from the spec: [utils.WriteGobToDisk] is not part of the
    sources at hand.  A write replaces the whole file of that name; a
    failed write is reported and leaves the previous snapshot in place. *)
Definition WriteGobToDisk (ok : bool) (nm : string)
    (o : gmap string twitchChannelInfo) (d : Disk) : Disk * option error :=
  if ok then (<[nm := o]> d, None) else (d, Some (ErrOther "write failed")).

Definition readGobFromDisk (nm : string) (o : gmap string twitchChannelInfo)
    (d : Disk) : gmap string twitchChannelInfo * option error :=
  match d !! nm with
  | None => (o, Some ErrNotExist)
  | Some stored => (stored, None)
  end.

(** [New]: [clientErr] is what [helix.NewClient] returned. *)
Definition New (clientErr : option error) (nm : string) (d : Disk)
    : Session * option error :=
  let t := {| name := nm; appAccessToken := ""; isConnected := false;
              twitchData := ∅ |} in
  match clientErr with
  | Some e => (t, Some e)
  | None =>
      let '(td, err) := readGobFromDisk nm ∅ d in
      let err := match err with Some ErrNotExist => None | _ => err end in
      (withTwitchData td t, err)
  end.

(** ** Authentication *)

Definition GetAuthToken (c : helix.Client) (t : Session) : Session * option error :=
  let resp := helix.RequestAppAccessToken c in
  match helix.tokenErr resp with
  | Some e => (t, Some e)
  | None =>
      if bool_decide (helix.AccessToken resp = "") then (t, Some ErrEmptyAccessToken)
      else ({| name := name t; appAccessToken := helix.AccessToken resp;
               isConnected := true; twitchData := twitchData t |}, None)
  end.

(** The refresh loop [for !ts.isConnected] runs its body once: a failed
    [GetAuthToken] breaks out of it, a successful one sets [isConnected]. *)
Definition validateAndRefreshAuthToken (c : helix.Client) (ts : Session) : Session * bool :=
  let resp := helix.ValidateToken c (appAccessToken ts) in
  match helix.validateErr resp with
  | Some _ => (ts, false)
  | None =>
      if negb (helix.isValid resp) then
        let ts1 := withConnected false ts in
        let ts2 := match GetAuthToken c ts1 with
                   | (_, Some _) => ts1
                   | (ts', None) => ts'
                   end in
        if isConnected ts2 then (ts2, true) else (ts2, false)
      else if negb (helix.StatusCode resp =? 200) then (ts, false)
      else (ts, true)
  end.

(** ** The channel registry *)

Fixpoint indexFrom (l : list discordChannel) (discordChannelID : string) (i : Z) : Z :=
  match l with
  | [] => -1
  | d :: l' =>
      if bool_decide (ChannelID d = discordChannelID) then i
      else indexFrom l' discordChannelID (i + 1)
  end.

Definition getChannelIdx (t : Session)
    (twitchID discordGuildID discordChannelID : string) : Z :=
  match twitchData t !! twitchID with
  | None => -1
  | Some info => indexFrom (channelsOf info discordGuildID) discordChannelID 0
  end.

(** [remove] swaps the element at [i] with the last one and drops the last
    slot.  [None] is the run-time panic of an index out of range. *)
Definition remove (s : list discordChannel) (i : Z) : option (list discordChannel) :=
  if i <? 0 then None
  else
    x ← s !! Z.to_nat i;
    y ← s !! (length s - 1)%nat;
    Some (take (length s - 1)%nat (<[Z.to_nat i := y]> (<[(length s - 1)%nat := x]> s))).

(** The first half of [RegisterChannel]: make sure the twitch channel has
    an entry.  [Some e] is the early [return e]. *)
Definition ensureTwitchChannel (c : helix.Client) (twitchID : string)
    (t : Session) : Session * option error :=
  match twitchData t !! twitchID with
  | Some _ => (t, None)
  | None =>
      let '(t1, ok) := validateAndRefreshAuthToken c t in
      if ok then
        let resp := helix.GetUsers c [twitchID] in
        match helix.Users resp with
        | [] => (t1, Some ErrTwitchUserDoesNotExist)
        | u :: _ =>
            (withTwitchData
               (<[twitchID := {| DisplayName := helix.DisplayName u;
                                 LogoURL := helix.ProfileImageURL u;
                                 StreamTitle := ""; GameID := "";
                                 ThumbnailURL := "";
                                 StartTime := time.zero; EndTime := time.zero;
                                 DiscordChannels := ∅ |}]> (twitchData t1)) t1,
             None)
        end
      else (t1, Some ErrInvalidToken)
  end.

(** [DiscordChannels[discordGuildID] = append(DiscordChannels[discordGuildID], dc)]
    on the entry of the twitch channel. *)
Definition appendChannel (discordGuildID discordChannelID : string)
    (info : twitchChannelInfo) : twitchChannelInfo :=
  let dc := {| ChannelID := discordChannelID; LiveNotificationSent := false |} in
  withDiscordChannels
    (<[discordGuildID := channelsOf info discordGuildID ++ [dc]]> (DiscordChannels info))
    info.

(** The results are [None] when the Go code would panic (a nil entry
    dereferenced); [RegisterChannel_runs] and [UnregisterChannel_runs]
    show that this never happens. *)
Definition RegisterChannel (c : helix.Client) (writeOk : bool)
    (twitchID discordGuildID discordChannelID : string)
    (t : Session) (d : Disk) : option (Session * Disk * option error) :=
  match ensureTwitchChannel c twitchID t with
  | (t1, Some e) => Some (t1, d, Some e)
  | (t1, None) =>
      if getChannelIdx t1 twitchID discordGuildID discordChannelID <? 0 then
        info ← twitchData t1 !! twitchID;
        let info' := appendChannel discordGuildID discordChannelID info in
        let t2 := withTwitchData (<[twitchID := info']> (twitchData t1)) t1 in
        let '(d', _) := WriteGobToDisk writeOk (name t2) (twitchData t2) d in
        Some (t2, d', None)
      else Some (t1, d, Some ErrTwitchUserRegistered)
  end.

(** The two checks of [UnregisterChannel] that follow the removal. *)
Definition dropGuildIfEmpty (discordGuildID : string)
    (info : twitchChannelInfo) : twitchChannelInfo :=
  if bool_decide (length (channelsOf info discordGuildID) = 0%nat)
  then withDiscordChannels (delete discordGuildID (DiscordChannels info)) info
  else info.

Definition dropTwitchIfEmpty (twitchID : string) (info : twitchChannelInfo)
    (td : gmap string twitchChannelInfo) : gmap string twitchChannelInfo :=
  if bool_decide (size (DiscordChannels info) = 0%nat)
  then delete twitchID td
  else <[twitchID := info]> td.

Definition UnregisterChannel (writeOk : bool)
    (twitchID discordGuildID discordChannelID : string)
    (t : Session) (d : Disk) : option (Session * Disk * bool) :=
  let channelIdx := getChannelIdx t twitchID discordGuildID discordChannelID in
  if 0 <=? channelIdx then
    info ← twitchData t !! twitchID;
    s ← remove (channelsOf info discordGuildID) channelIdx;
    let info1 := withDiscordChannels (<[discordGuildID := s]> (DiscordChannels info)) info in
    let info2 := dropGuildIfEmpty discordGuildID info1 in
    let t' := withTwitchData (dropTwitchIfEmpty twitchID info2 (twitchData t)) t in
    let '(d', _) := WriteGobToDisk writeOk (name t') (twitchData t') d in
    Some (t', d', true)
  else Some (t, d, false).

(** ** Guild availability *)

Definition SetGuildActive (guildID : string) (guildStatus : gmap string bool) : gmap string bool :=
  <[guildID := true]> guildStatus.

Definition SetGuildInactive (guildID : string) (guildStatus : gmap string bool) : gmap string bool :=
  <[guildID := false]> guildStatus.

Definition SetGuildUnavailable (guildID : string) (guildStatus : gmap string bool) : gmap string bool :=
  delete guildID guildStatus.

(** ** Shutdown *)

(** The inner loop of [Close] over [guildStatus], for one entry. *)
Definition pruneGuilds (guildStatus : gmap string bool)
    (dcs : gmap string (list discordChannel)) : gmap string (list discordChannel) :=
  map_fold (λ gID status acc, if negb status then delete gID acc else acc) dcs guildStatus.

Definition Close (writeOk : bool) (guildStatus : gmap string bool)
    (t : Session) (d : Disk) : Session * Disk * option error :=
  let td :=
    (λ tcInfo, withDiscordChannels (pruneGuilds guildStatus (DiscordChannels tcInfo)) tcInfo)
      <$> twitchData t in
  let t' := {| name := name t; appAccessToken := appAccessToken t;
               isConnected := false; twitchData := td |} in
  let '(d', err) := WriteGobToDisk writeOk (name t') (twitchData t') d in
  (t', d', err).

(** ** What the monitor sends to discord *)

(** [strings.Replace(s, old, new, -1)] for a non-empty [old]: [skip]
    counts the characters of a match that are still to be passed over. *)
Fixpoint replaceFrom (old new : string) (skip : nat) (s : string) : string :=
  match s with
  | EmptyString => EmptyString
  | String ch rest =>
      match skip with
      | S k => replaceFrom old new k rest
      | O =>
          if String.prefix old s
          then String.append new (replaceFrom old new (String.length old - 1) rest)
          else String ch (replaceFrom old new 0 rest)
      end
  end.

Definition Replace (s old new : string) : string := replaceFrom old new 0 s.

(** The fields of [discordgo.MessageEmbed] that [createDiscordEmbedMessage]
    fills with something other than an empty value. *)
Record MessageEmbed := {
  embedURL : string;
  embedTitle : string;
  embedColor : Z;
  embedImageURL : string;
  embedImageWidth : Z;
  embedImageHeight : Z;
  embedAuthorName : string;
  embedAuthorIconURL : string
}.

Definition createDiscordEmbedMessage (t : twitchChannelInfo) : MessageEmbed :=
  {| embedURL := String.append "https://www.twitch.tv/" (DisplayName t);
     embedTitle := StreamTitle t;
     embedColor := 0x808080;
     embedImageURL :=
       Replace (Replace (ThumbnailURL t) "{width}" "1920") "{height}" "1080";
     embedImageWidth := 1920;
     embedImageHeight := 1080;
     embedAuthorName := DisplayName t;
     embedAuthorIconURL := LogoURL t |}.

Inductive message :=
  | ChannelMessageSendEmbed (channelID : string) (embed : MessageEmbed)
  | ChannelMessageSend (channelID : string) (content : string).

(** One [go func() { ... }()] of the monitor: the message it sends, together
    with the twitch channel and the guild of the iteration that started it. *)
Record dispatch := {
  fromTwitch : string;
  fromGuild : string;
  sent : message
}.

Definition liveMessage (twitchChannel guild : string) (tcInfo : twitchChannelInfo)
    (dc : discordChannel) : dispatch :=
  {| fromTwitch := twitchChannel; fromGuild := guild;
     sent := ChannelMessageSendEmbed (ChannelID dc) (createDiscordEmbedMessage tcInfo) |}.

Definition offlineMessage (twitchChannel guild : string) (tcInfo : twitchChannelInfo)
    (dc : discordChannel) : dispatch :=
  {| fromTwitch := twitchChannel; fromGuild := guild;
     sent := ChannelMessageSend (ChannelID dc)
               (String.append (DisplayName tcInfo) " is now offline!") |}.

Definition isLive (m : message) : bool :=
  match m with ChannelMessageSendEmbed _ _ => true | ChannelMessageSend _ _ => false end.

Definition recipient (m : message) : string :=
  match m with ChannelMessageSendEmbed c _ => c | ChannelMessageSend c _ => c end.

Definition withSent (b : bool) (dc : discordChannel) : discordChannel :=
  {| ChannelID := ChannelID dc; LiveNotificationSent := b |}.

(** ** The monitor *)

(** The two innermost loops of [monitorChannels], over the channels of one
    guild: the flags after the loop and the messages it started. *)
Fixpoint notifyLive (twitchChannel guild : string) (tcInfo : twitchChannelInfo)
    (discordChannels : list discordChannel) : list discordChannel * list dispatch :=
  match discordChannels with
  | [] => ([], [])
  | dc :: rest =>
      let '(rest', out) := notifyLive twitchChannel guild tcInfo rest in
      if negb (LiveNotificationSent dc)
      then (withSent true dc :: rest', liveMessage twitchChannel guild tcInfo dc :: out)
      else (dc :: rest', out)
  end.

Fixpoint notifyOffline (twitchChannel guild : string) (tcInfo : twitchChannelInfo)
    (discordChannels : list discordChannel) : list discordChannel * list dispatch :=
  match discordChannels with
  | [] => ([], [])
  | dc :: rest =>
      let '(rest', out) := notifyOffline twitchChannel guild tcInfo rest in
      if LiveNotificationSent dc
      then (withSent false dc :: rest', offlineMessage twitchChannel guild tcInfo dc :: out)
      else (dc :: rest', out)
  end.

(** [connected, available := guildStatus[guild]; available && connected] *)
Definition guildReady (guildStatus : gmap string bool) (guild : string) : bool :=
  match guildStatus !! guild with
  | Some connected => connected
  | None => false
  end.

(** [for guild, discordChannels := range tcInfo.DiscordChannels] with the
    guard on [guildStatus]; [body] is one of the two loops above. *)
Definition forGuilds (body : string → list discordChannel → list discordChannel * list dispatch)
    (guildStatus : gmap string bool) (dcs : gmap string (list discordChannel))
    : gmap string (list discordChannel) * list dispatch :=
  (map_imap (λ guild l,
     Some (if guildReady guildStatus guild then (body guild l).1 else l)) dcs,
   map_to_list dcs ≫= (λ gl : string * list discordChannel,
     if guildReady guildStatus gl.1 then (body gl.1 gl.2).2 else [])).

(** What twitch, the clock and discord's gateway look like during one turn
    of the monitor's loop: [stampClock k] is [time.Now()] when the end time
    of channel [k] is stamped, [sinceClock k] is the clock when the
    debounce of channel [k] is evaluated. *)
Record Tick := {
  client : helix.Client;
  stampClock : string → time.Time;
  sinceClock : string → time.Time;
  guildStatus : gmap string bool
}.

Fixpoint findLive (twitchChannel : string) (streams : list helix.Stream)
    : option helix.Stream :=
  match streams with
  | [] => None
  | s :: rest =>
      if bool_decide (helix.UserLogin s = twitchChannel)
         && bool_decide (helix.Type_ s = "live")
      then Some s
      else findLive twitchChannel rest
  end.

(** The body of the loop labelled [OUTER]. *)
Definition populate (now : time.Time) (streams : list helix.Stream)
    (twitchChannel : string) (tcInfo : twitchChannelInfo) : twitchChannelInfo :=
  match findLive twitchChannel streams with
  | Some s =>
      {| DisplayName := DisplayName tcInfo; LogoURL := LogoURL tcInfo;
         StreamTitle := helix.Title s; GameID := helix.GameID s;
         ThumbnailURL := helix.ThumbnailURL s;
         StartTime := helix.StartedAt s; EndTime := time.zero;
         DiscordChannels := DiscordChannels tcInfo |}
  | None =>
      {| DisplayName := DisplayName tcInfo; LogoURL := LogoURL tcInfo;
         StreamTitle := StreamTitle tcInfo; GameID := GameID tcInfo;
         ThumbnailURL := ThumbnailURL tcInfo;
         StartTime := time.zero;
         EndTime := if time.IsZero (EndTime tcInfo) then now else EndTime tcInfo;
         DiscordChannels := DiscordChannels tcInfo |}
  end.

Section Monitor.

(** [constants.TwitchStateChangeTime], the debounce threshold. *)
Variable TwitchStateChangeTime : time.Duration.

(** The two conditions of the second loop over [ts.twitchData]. *)
Definition confirmedLive (now : time.Time) (tcInfo : twitchChannelInfo) : bool :=
  negb (time.IsZero (StartTime tcInfo))
  && (TwitchStateChangeTime <? time.Since now (StartTime tcInfo)).

Definition confirmedOffline (now : time.Time) (tcInfo : twitchChannelInfo) : bool :=
  negb (time.IsZero (EndTime tcInfo))
  && (TwitchStateChangeTime <? time.Since now (EndTime tcInfo)).

(** The body of the second loop over [ts.twitchData]. *)
Definition evaluate (guildStatus : gmap string bool) (now : time.Time)
    (twitchChannel : string) (tcInfo : twitchChannelInfo)
    : twitchChannelInfo * list dispatch :=
  if confirmedLive now tcInfo then
    let '(dcs, out) :=
      forGuilds (λ guild, notifyLive twitchChannel guild tcInfo)
        guildStatus (DiscordChannels tcInfo) in
    (withDiscordChannels dcs tcInfo, out)
  else if confirmedOffline now tcInfo then
    let '(dcs, out) :=
      forGuilds (λ guild, notifyOffline twitchChannel guild tcInfo)
        guildStatus (DiscordChannels tcInfo) in
    (withDiscordChannels dcs tcInfo, out)
  else (tcInfo, []).

Definition populateAll (w : Tick) (streams : list helix.Stream)
    (td : gmap string twitchChannelInfo) : gmap string twitchChannelInfo :=
  map_imap (λ k tcInfo, Some (populate (stampClock w k) streams k tcInfo)) td.

Definition evaluateAll (w : Tick) (td : gmap string twitchChannelInfo)
    : gmap string twitchChannelInfo * list dispatch :=
  (map_imap (λ k tcInfo,
     Some (evaluate (guildStatus w) (sinceClock w k) k tcInfo).1) td,
   map_to_list td ≫= (λ ki : string * twitchChannelInfo,
     (evaluate (guildStatus w) (sinceClock w ki.1) ki.1 ki.2).2)).

(** The answer to [GetStreams] for the channels of the registry, and the
    registry once the loop labelled [OUTER] has gone over it. *)
Definition observe (w : Tick) (td : gmap string twitchChannelInfo)
    : gmap string twitchChannelInfo :=
  let queryChannels := (map_to_list td).*1 in
  let resp := helix.GetStreams (client w) queryChannels in
  populateAll w (helix.Streams resp) td.

(** One turn of [for ts.isConnected { ... }], without the sleep. *)
Definition monitorCycle (w : Tick) (ts : Session) : Session * list dispatch :=
  let '(ts1, ok) := validateAndRefreshAuthToken (client w) ts in
  if ok then
    let '(td, out) := evaluateAll w (observe w (twitchData ts1)) in
    (withTwitchData td ts1, out)
  else (ts1, []).

(** [monitorChannels] over the turns [ws] the world grants it: the loop
    ends when the session is no longer connected.  The result lists the
    messages of every turn taken. *)
Fixpoint monitorChannels (ws : list Tick) (ts : Session)
    : Session * list (list dispatch) :=
  match ws with
  | [] => (ts, [])
  | w :: ws' =>
      if isConnected ts then
        let '(ts1, out) := monitorCycle w ts in
        let '(ts2, outs) := monitorChannels ws' ts1 in
        (ts2, out :: outs)
      else (ts, [])
  end.

End Monitor.

(** ** Vocabulary of the properties *)

(** A discord channel is subscribed to twitch channel [k] in guild [g]. *)
Definition subscribed (td : gmap string twitchChannelInfo) (k g : string)
    (dc : discordChannel) : Prop :=
  ∃ info, td !! k = Some info ∧ dc ∈ channelsOf info g.

(** The session, guild status and subscription used in the examples. *)
Definition exampleChannel : discordChannel :=
  {| ChannelID := "c1"; LiveNotificationSent := false |}.

Definition exampleInfo : twitchChannelInfo :=
  {| DisplayName := "Alice"; LogoURL := "http://a"; StreamTitle := "";
     GameID := ""; ThumbnailURL := ""; StartTime := 0; EndTime := 0;
     DiscordChannels := {["g1" := [exampleChannel]]} |}.

Definition exampleSession : Session :=
  {| name := "session1"; appAccessToken := "token"; isConnected := true;
     twitchData := {["alice" := exampleInfo]} |}.

(** Every entry of the registry has a guild with a subscription. *)
Definition everyEntrySubscribed (td : gmap string twitchChannelInfo) : Prop :=
  ∀ k info, td !! k = Some info →
    ∃ g l, DiscordChannels info !! g = Some l ∧ l ≠ [].


(** The message was started for the subscriptions of guild [g] to twitch
    channel [k]. *)
Definition fromSubscription (k g : string) (m : dispatch) : Prop :=
  fromTwitch m = k ∧ fromGuild m = g.

(** A "now live" message for discord channel [cid], and one started for
    its subscription in guild [g] to twitch channel [k]. *)
Definition liveFor (cid : string) (m : dispatch) : Prop :=
  isLive (sent m) = true ∧ recipient (sent m) = cid.

Definition liveTo (k g cid : string) (m : dispatch) : Prop :=
  liveFor cid m ∧ fromSubscription k g m.


#[global] Instance fromSubscription_dec k g m : Decision (fromSubscription k g m).
Proof. unfold fromSubscription. apply _. Defined.

#[global] Instance liveFor_dec cid m : Decision (liveFor cid m).
Proof. unfold liveFor. apply _. Defined.

#[global] Instance liveTo_dec k g cid m : Decision (liveTo k g cid m).
Proof. unfold liveTo. apply _. Defined.

(** What one turn of the monitor starts for guild [g] and twitch channel
    [k], and the guild's list after it, from the entry [tcInfo] as the loop
    labelled [OUTER] left it. *)
Definition guildMessages (threshold : time.Duration) (guildStatus : gmap string bool)
    (now : time.Time) (k g : string) (tcInfo : twitchChannelInfo) : list dispatch :=
  if guildReady guildStatus g then
    if confirmedLive threshold now tcInfo
    then (notifyLive k g tcInfo (channelsOf tcInfo g)).2
    else if confirmedOffline threshold now tcInfo
    then (notifyOffline k g tcInfo (channelsOf tcInfo g)).2
    else []
  else [].

Definition guildFlags (threshold : time.Duration) (guildStatus : gmap string bool)
    (now : time.Time) (k g : string) (tcInfo : twitchChannelInfo) : list discordChannel :=
  if guildReady guildStatus g then
    if confirmedLive threshold now tcInfo
    then (notifyLive k g tcInfo (channelsOf tcInfo g)).1
    else if confirmedOffline threshold now tcInfo
    then (notifyOffline k g tcInfo (channelsOf tcInfo g)).1
    else channelsOf tcInfo g
  else channelsOf tcInfo g.

(** A turn of the monitor in which twitch accepts the token and reports no
    stream, five minutes and more after the end time of [alice], whose only
    subscriber has been told that she was live; [g1] has no entry in
    [guildStatus]. *)
Definition exampleClient : helix.Client :=
  {| helix.ValidateToken := λ _,
       {| helix.isValid := true; helix.StatusCode := 200; helix.validateErr := None |};
     helix.RequestAppAccessToken :=
       {| helix.AccessToken := "token"; helix.tokenErr := None |};
     helix.GetUsers := λ _,
       {| helix.Users := [{| helix.DisplayName := "Alice";
                             helix.ProfileImageURL := "http://a" |}];
          helix.usersErr := None |};
     helix.GetStreams := λ _, {| helix.Streams := []; helix.streamsErr := None |} |}.

Definition fiveMinutes : time.Duration := 300000000000.

Definition exampleNotified : discordChannel :=
  {| ChannelID := "c1"; LiveNotificationSent := true |}.

Definition exampleEnded : twitchChannelInfo :=
  {| DisplayName := "Alice"; LogoURL := "http://a"; StreamTitle := "Speedrun";
     GameID := "cat1"; ThumbnailURL := ""; StartTime := 0;
     EndTime := 1000000000000;
     DiscordChannels := {["g1" := [exampleNotified]]} |}.

Definition exampleEndedSession : Session :=
  {| name := "session1"; appAccessToken := "token"; isConnected := true;
     twitchData := {["alice" := exampleEnded]} |}.

Definition exampleTick (gs : gmap string bool) : Tick :=
  {| client := exampleClient;
     stampClock := λ _, 2000000000000;
     sinceClock := λ _, 2000000000000;
     guildStatus := gs |}.

(** A command handler that adds, or removes, one twitch channel for a list
    of guild and discord channel pairs, one call after the other. *)
Fixpoint registerAll (c : helix.Client) (writeOk : bool) (twitchID : string)
    (subs : list (string * string)) (t : Session) (d : Disk)
    : option (Session * Disk * list (option error)) :=
  match subs with
  | [] => Some (t, d, [])
  | (g, cid) :: rest =>
      r ← RegisterChannel c writeOk twitchID g cid t d;
      r' ← registerAll c writeOk twitchID rest r.1.1 r.1.2;
      Some (r'.1.1, r'.1.2, r.2 :: r'.2)
  end.

Fixpoint unregisterAll (writeOk : bool) (twitchID : string)
    (subs : list (string * string)) (t : Session) (d : Disk)
    : option (Session * Disk * list bool) :=
  match subs with
  | [] => Some (t, d, [])
  | (g, cid) :: rest =>
      r ← UnregisterChannel writeOk twitchID g cid t d;
      r' ← unregisterAll writeOk twitchID rest r.1.1 r.1.2;
      Some (r'.1.1, r'.1.2, r.2 :: r'.2)
  end.

(** The guild and discord channel pairs [R] are exactly the subscriptions
    of the entry, whose lists are not empty and name a channel once. *)
Definition describes (info : twitchChannelInfo) (R : gset (string * string)) : Prop :=
  (∀ g l, DiscordChannels info !! g = Some l → l ≠ [] ∧ NoDup (ChannelID <$> l))
  ∧ (∀ g cid, (g, cid) ∈ R ↔ cid ∈ ChannelID <$> channelsOf info g).

(** The registry [td] is [td0] with, when [R] is not empty, an entry for
    [k] whose subscriptions are [R]. *)
Definition entryOf (k : string) (td0 td : gmap string twitchChannelInfo)
    (R : gset (string * string)) : Prop :=
  (R = ∅ ∧ td = td0)
  ∨ ∃ info, td = <[k := info]> td0 ∧ DiscordChannels info ≠ ∅ ∧ describes info R.

(** A session that has no twitch channel yet, a client whose token
    validation fails, one whose user lookup fails and lists nobody, and a
    turn of the monitor in which [alice] has been live for a long time. *)
Definition exampleEmptySession : Session :=
  {| name := "session1"; appAccessToken := "token"; isConnected := true;
     twitchData := ∅ |}.

Definition exampleBrokenClient : helix.Client :=
  {| helix.ValidateToken := λ _,
       {| helix.isValid := false; helix.StatusCode := 0;
          helix.validateErr := Some (ErrOther "connection refused") |};
     helix.RequestAppAccessToken :=
       {| helix.AccessToken := ""; helix.tokenErr := Some (ErrOther "connection refused") |};
     helix.GetUsers := λ _, {| helix.Users := []; helix.usersErr := None |};
     helix.GetStreams := λ _, {| helix.Streams := []; helix.streamsErr := None |} |}.

Definition exampleTimeoutClient : helix.Client :=
  {| helix.ValidateToken := helix.ValidateToken exampleClient;
     helix.RequestAppAccessToken := helix.RequestAppAccessToken exampleClient;
     helix.GetUsers := λ _,
       {| helix.Users := []; helix.usersErr := Some (ErrOther "timeout") |};
     helix.GetStreams := helix.GetStreams exampleClient |}.

Definition exampleStream : helix.Stream :=
  {| helix.UserLogin := "alice"; helix.Type_ := "live"; helix.Title := "Speedrun";
     helix.GameID := "cat1"; helix.ThumbnailURL := "http://t/{width}x{height}.jpg";
     helix.StartedAt := 1400000000000 |}.

Definition exampleLiveTick : Tick :=
  {| client :=
       {| helix.ValidateToken := helix.ValidateToken exampleClient;
          helix.RequestAppAccessToken := helix.RequestAppAccessToken exampleClient;
          helix.GetUsers := helix.GetUsers exampleClient;
          helix.GetStreams := λ _,
            {| helix.Streams := [exampleStream]; helix.streamsErr := None |} |};
     stampClock := λ _, 2000000000000;
     sinceClock := λ _, 2000000000000;
     guildStatus := {["g1" := true]} |}.

Definition exampleLiveInfo : twitchChannelInfo :=
  populate 2000000000000 [exampleStream] "alice" exampleInfo.

(** ** Vocabulary of the further properties *)

(** The entry [RegisterChannel] makes for a twitch channel it did not know,
    from the first user of the lookup's answer. *)
Definition newTwitchChannel (u : helix.User) : twitchChannelInfo :=
  {| DisplayName := helix.DisplayName u; LogoURL := helix.ProfileImageURL u;
     StreamTitle := ""; GameID := ""; ThumbnailURL := "";
     StartTime := time.zero; EndTime := time.zero; DiscordChannels := ∅ |}.

(** Every entry has a guild, every guild of an entry has a discord channel,
    and no guild lists a discord channel twice. *)
Definition wellFormed (td : gmap string twitchChannelInfo) : Prop :=
  ∀ k info, td !! k = Some info →
    DiscordChannels info ≠ ∅
    ∧ ∀ g l, DiscordChannels info !! g = Some l → l ≠ [] ∧ NoDup (ChannelID <$> l).

(** The entry [info'] names the twitch channel and lists the discord
    channels, guild by guild and in order, as [info] does. *)
Definition sameSubscribers (info info' : twitchChannelInfo) : Prop :=
  DisplayName info' = DisplayName info
  ∧ LogoURL info' = LogoURL info
  ∧ ∀ g, fmap (M := list) ChannelID <$> DiscordChannels info' !! g
         = fmap (M := list) ChannelID <$> DiscordChannels info !! g.

(** Twitch answers the validation without an error and calls the token
    invalid, and does not hand out a new one. *)
Definition refreshFails (c : helix.Client) (token : string) : Prop :=
  helix.validateErr (helix.ValidateToken c token) = None
  ∧ helix.isValid (helix.ValidateToken c token) = false
  ∧ (helix.tokenErr (helix.RequestAppAccessToken c) ≠ None
     ∨ helix.AccessToken (helix.RequestAppAccessToken c) = "").

(** Twitch calls the token invalid and refuses a new one; twitch calls the
    token invalid and hands out another. *)
Definition exampleExpiredClient : helix.Client :=
  {| helix.ValidateToken := λ _,
       {| helix.isValid := false; helix.StatusCode := 401; helix.validateErr := None |};
     helix.RequestAppAccessToken :=
       {| helix.AccessToken := ""; helix.tokenErr := Some (ErrOther "forbidden") |};
     helix.GetUsers := helix.GetUsers exampleClient;
     helix.GetStreams := helix.GetStreams exampleClient |}.

Definition exampleRenewClient : helix.Client :=
  {| helix.ValidateToken := λ _,
       {| helix.isValid := false; helix.StatusCode := 401; helix.validateErr := None |};
     helix.RequestAppAccessToken :=
       {| helix.AccessToken := "renewed"; helix.tokenErr := None |};
     helix.GetUsers := helix.GetUsers exampleClient;
     helix.GetStreams := helix.GetStreams exampleClient |}.

Definition exampleExpiredTick : Tick :=
  {| client := exampleExpiredClient;
     stampClock := λ _, 2000000000000;
     sinceClock := λ _, 2000000000000;
     guildStatus := {["g1" := true]} |}.

(** [alice] with two subscribers in [g1]. *)
Definition exampleSecond : discordChannel :=
  {| ChannelID := "c2"; LiveNotificationSent := false |}.

Definition examplePairInfo : twitchChannelInfo :=
  withDiscordChannels {["g1" := [exampleChannel; exampleSecond]]} exampleInfo.

Definition examplePairSession : Session :=
  withTwitchData {["alice" := examplePairInfo]} exampleSession.

(** An offline text for discord channel [cid], and one started for its
    subscription in guild [g] to twitch channel [k]. *)
Definition offlineFor (cid : string) (m : dispatch) : Prop :=
  isLive (sent m) = false ∧ recipient (sent m) = cid.

Definition offlineTo (k g cid : string) (m : dispatch) : Prop :=
  offlineFor cid m ∧ fromSubscription k g m.


#[global] Instance offlineFor_dec cid m : Decision (offlineFor cid m).
Proof. unfold offlineFor. apply _. Defined.

#[global] Instance offlineTo_dec k g cid m : Decision (offlineTo k g cid m).
Proof. unfold offlineTo. apply _. Defined.

(** ** Package [handlers] *)

(** [GuildCreate]: [unavailable] is [event.Guild.Unavailable], [id] is
    [event.ID]; the handler acts on the package variable [guildStatus]. *)
Definition GuildCreate (unavailable : bool) (id : string)
    (guildStatus : gmap string bool) : gmap string bool :=
  if unavailable then SetGuildUnavailable id guildStatus
  else SetGuildActive id guildStatus.

(** The opening brace, and whether a character occurs in a string. *)
Definition brace : Ascii.ascii := Ascii.ascii_of_nat 123.

Fixpoint hasChar (c : Ascii.ascii) (s : string) : bool :=
  match s with
  | EmptyString => false
  | String ch rest => bool_decide (ch = c) || hasChar c rest
  end.
(** * Properties *)

(** ** Looking a subscription up *)

Lemma indexFrom_absent (l : list discordChannel) (c : string) (i : Z) :
  c ∉ ChannelID <$> l → indexFrom l c i = -1.
Proof.
  revert i. induction l as [|d l IH]; intros i Hc; simpl; [done|].
  rewrite fmap_cons in Hc. apply not_elem_of_cons in Hc as [Hd Hl].
  rewrite bool_decide_eq_false_2 by congruence. by apply IH.
Qed.

Lemma indexFrom_present (l : list discordChannel) (c : string) (i : Z) :
  c ∈ ChannelID <$> l →
  ∃ (n : nat) d, l !! n = Some d ∧ ChannelID d = c ∧ indexFrom l c i = i + Z.of_nat n.
Proof.
  revert i. induction l as [|d l IH]; intros i Hc; simpl.
  - by apply elem_of_nil in Hc.
  - destruct (decide (ChannelID d = c)) as [Heq|Hne].
    + rewrite bool_decide_eq_true_2 by done. exists 0%nat, d. split_and!; [done|done|lia].
    + rewrite bool_decide_eq_false_2 by done.
      rewrite fmap_cons in Hc. apply elem_of_cons in Hc as [Hc|Hc]; [congruence|].
      destruct (IH (i + 1) Hc) as (n & d' & Hn & Hd' & Hidx).
      exists (S n), d'. split_and!; [done|done|lia].
Qed.

Lemma indexFrom_lower (l : list discordChannel) (c : string) (i : Z) :
  0 ≤ i → indexFrom l c i = -1 ∨ i ≤ indexFrom l c i.
Proof.
  revert i. induction l as [|d l IH]; intros i Hi; simpl; [by left|].
  case_bool_decide; [right; lia|].
  destruct (IH (i + 1)) as [->|?]; [lia|by left|right; lia].
Qed.

Lemma getChannelIdx_absent t k g c :
  (∀ info, twitchData t !! k = Some info → c ∉ ChannelID <$> channelsOf info g) →
  getChannelIdx t k g c = -1.
Proof.
  intros H. unfold getChannelIdx. destruct (twitchData t !! k) as [info|]; [|done].
  by apply indexFrom_absent, H.
Qed.

Lemma getChannelIdx_present t k g c info :
  twitchData t !! k = Some info →
  c ∈ ChannelID <$> channelsOf info g →
  ∃ (n : nat) d, channelsOf info g !! n = Some d ∧ ChannelID d = c
                 ∧ getChannelIdx t k g c = Z.of_nat n.
Proof.
  intros Hk Hc. unfold getChannelIdx. rewrite Hk.
  destruct (indexFrom_present _ _ 0 Hc) as (n & d & ? & ? & ->). by exists n, d.
Qed.

Lemma getChannelIdx_found t k g c :
  0 ≤ getChannelIdx t k g c →
  ∃ info, twitchData t !! k = Some info ∧ c ∈ ChannelID <$> channelsOf info g.
Proof.
  intros H. destruct (twitchData t !! k) as [info|] eqn:Hk.
  - exists info. split; [done|].
    destruct (decide (c ∈ ChannelID <$> channelsOf info g)) as [|Hn]; [done|].
    rewrite getChannelIdx_absent in H; [lia|]. intros info' ?. by simplify_eq.
  - unfold getChannelIdx in H. rewrite Hk in H. lia.
Qed.

(** ** Removing from a slice *)

Lemma insert_Permutation {A} (l : list A) (n : nat) (x y : A) :
  l !! n = Some x → <[n := y]> l ≡ₚ y :: delete n l.
Proof.
  revert n. induction l as [|a l IH]; intros [|n] Hn; simplify_eq/=; [done|].
  rewrite (IH n Hn). apply Permutation_swap.
Qed.

Lemma delete_app_lt {A} (l k : list A) (n : nat) :
  (n < length l)%nat → delete n (l ++ k) = delete n l ++ k.
Proof.
  revert n. induction l as [|a l IH]; intros [|n] Hn; simpl in *; try lia; [done|].
  f_equal. apply IH. lia.
Qed.

Lemma snoc_of_last {A} (s : list A) (y : A) :
  s !! (length s - 1)%nat = Some y → s = take (length s - 1) s ++ [y].
Proof.
  intros Hy. pose proof (lookup_lt_Some _ _ _ Hy) as Hlt.
  rewrite <- (take_drop (length s - 1) s) at 1. f_equal.
  apply list_eq. intros [|i].
  - by rewrite lookup_drop, Nat.add_0_r.
  - rewrite lookup_drop. simpl. apply lookup_ge_None. lia.
Qed.

Lemma remove_Some (s : list discordChannel) (n : nat) (x : discordChannel) :
  s !! n = Some x →
  ∃ s', remove s (Z.of_nat n) = Some s' ∧ s' ≡ₚ delete n s.
Proof.
  intros Hn. unfold remove.
  assert ((Z.of_nat n <? 0) = false) as -> by (apply Z.ltb_ge; lia).
  rewrite Nat2Z.id, Hn. simpl.
  pose proof (lookup_lt_Some _ _ _ Hn) as Hlt.
  destruct (lookup_lt_is_Some_2 s (length s - 1)%nat) as [y Hy]; [lia|].
  rewrite Hy. simpl. eexists. split; [done|].
  pose proof (snoc_of_last s y Hy) as Hs.
  set (l := take (length s - 1) s) in *.
  assert (Hlen : length l = (length s - 1)%nat).
  { unfold l. rewrite length_take. lia. }
  destruct (decide (n = length s - 1)%nat) as [->|Hne].
  - rewrite list_insert_insert_eq, (list_insert_id _ _ _ Hy).
    fold l. rewrite Hs at 2. rewrite <- Hlen, delete_middle. by rewrite app_nil_r.
  - rewrite take_insert_lt by lia.
    rewrite take_insert_ge by lia. fold l.
    assert (Hl : l !! n = Some x).
    { unfold l. rewrite lookup_take_lt by lia. done. }
    rewrite (insert_Permutation _ _ x y Hl).
    rewrite Hs, delete_app_lt by lia.
    by rewrite Permutation_app_comm.
Qed.

(** ** Authentication leaves the registry alone *)

Lemma GetAuthToken_twitchData c t :
  twitchData (GetAuthToken c t).1 = twitchData t ∧ name (GetAuthToken c t).1 = name t.
Proof.
  unfold GetAuthToken. destruct (helix.tokenErr _); [done|]. by case_bool_decide.
Qed.

Lemma validateAndRefreshAuthToken_twitchData c t :
  twitchData (validateAndRefreshAuthToken c t).1 = twitchData t.
Proof.
  unfold validateAndRefreshAuthToken.
  destruct (helix.validateErr _); [done|].
  destruct (helix.isValid _); simpl.
  - by destruct (negb _).
  - pose proof (GetAuthToken_twitchData c (withConnected false t)) as [Htd _].
    destruct (GetAuthToken c (withConnected false t)) as [t' [e|]]; simpl in *.
    + done.
    + by destruct (isConnected t').
Qed.

Lemma validateAndRefreshAuthToken_name c t :
  name (validateAndRefreshAuthToken c t).1 = name t.
Proof.
  unfold validateAndRefreshAuthToken.
  destruct (helix.validateErr _); [done|].
  destruct (helix.isValid _); simpl.
  - by destruct (negb _).
  - pose proof (GetAuthToken_twitchData c (withConnected false t)) as [_ Hn].
    destruct (GetAuthToken c (withConnected false t)) as [t' [e|]]; simpl in *.
    + done.
    + by destruct (isConnected t').
Qed.

(** ** Registering *)

Lemma ensureTwitchChannel_known c k t info :
  twitchData t !! k = Some info → ensureTwitchChannel c k t = (t, None).
Proof. intros H. unfold ensureTwitchChannel. by rewrite H. Qed.

Lemma ensureTwitchChannel_invalid c k t :
  twitchData t !! k = None →
  (validateAndRefreshAuthToken c t).2 = false →
  ensureTwitchChannel c k t = ((validateAndRefreshAuthToken c t).1, Some ErrInvalidToken).
Proof.
  intros Hk Hv. unfold ensureTwitchChannel. rewrite Hk.
  destruct (validateAndRefreshAuthToken c t) as [t1 ok]. simpl in *. by subst.
Qed.


(** Whenever the first half does not return early, the entry is there. *)
Lemma ensureTwitchChannel_entry c k t t1 :
  ensureTwitchChannel c k t = (t1, None) → is_Some (twitchData t1 !! k).
Proof.
  unfold ensureTwitchChannel. destruct (twitchData t !! k) as [info|] eqn:Hk.
  - intros [= <-]. by rewrite Hk.
  - destruct (validateAndRefreshAuthToken c t) as [t' ok]. destruct ok; [|done].
    destruct (helix.Users _) as [|u us]; [done|].
    intros [= <-]. simpl. rewrite lookup_insert_eq. by eexists.
Qed.

Lemma RegisterChannel_runs c w k g cid t d :
  is_Some (RegisterChannel c w k g cid t d).
Proof.
  unfold RegisterChannel.
  destruct (ensureTwitchChannel c k t) as [t1 [e|]] eqn:He; [by eexists|].
  destruct (ensureTwitchChannel_entry _ _ _ _ He) as [info Hinfo].
  case_match; [|by eexists]. rewrite Hinfo. simpl.
  destruct (WriteGobToDisk _ _ _ _). by eexists.
Qed.

Lemma RegisterChannel_success_inv c w k g cid t d t1 d1 :
  RegisterChannel c w k g cid t d = Some (t1, d1, None) →
  ∃ t' info,
    ensureTwitchChannel c k t = (t', None)
    ∧ twitchData t' !! k = Some info
    ∧ (cid ∉ ChannelID <$> channelsOf info g)
    ∧ t1 = withTwitchData (<[k := appendChannel g cid info]> (twitchData t')) t'
    ∧ d1 = (WriteGobToDisk w (name t1) (twitchData t1) d).1.
Proof.
  unfold RegisterChannel.
  destruct (ensureTwitchChannel c k t) as [t' [e|]] eqn:He; [done|].
  destruct (ensureTwitchChannel_entry _ _ _ _ He) as [info Hinfo].
  destruct (Z.ltb_spec (getChannelIdx t' k g cid) 0) as [Hlt|Hge]; [|done].
  rewrite Hinfo. simpl.
  destruct (WriteGobToDisk _ _ _ _) as [d' e] eqn:Hw.
  intros [= <- <-]. exists t', info. split_and!; try done.
  - intros Hin. destruct (getChannelIdx_present _ _ _ _ _ Hinfo Hin) as (n & ? & _ & _ & Hn).
    lia.
  - simpl in *. by rewrite Hw.
Qed.

Lemma channelsOf_appendChannel g cid info :
  channelsOf (appendChannel g cid info) g
  = channelsOf info g ++ [{| ChannelID := cid; LiveNotificationSent := false |}].
Proof. unfold channelsOf, appendChannel. simpl. by rewrite lookup_insert_eq. Qed.

Lemma channelsOf_appendChannel_ne g g' cid info :
  g ≠ g' → channelsOf (appendChannel g cid info) g' = channelsOf info g'.
Proof. intros. unfold channelsOf, appendChannel. simpl. by rewrite lookup_insert_ne. Qed.

(** C4: a second registration of the same twitch channel for the same guild
    and discord channel, after a first one that succeeded, returns
    [ErrTwitchUserRegistered]; it changes neither the session nor the disk,
    and the guild's list holds exactly one subscription of that channel. *)
Theorem RegisterChannel_twice c1 w1 c2 w2 k g cid t d t1 d1 :
  RegisterChannel c1 w1 k g cid t d = Some (t1, d1, None) →
  RegisterChannel c2 w2 k g cid t1 d1 = Some (t1, d1, Some ErrTwitchUserRegistered)
  ∧ ∃ info, twitchData t1 !! k = Some info
      ∧ length (filter (λ dc, ChannelID dc = cid) (channelsOf info g)) = 1%nat.
Proof.
  intros H1.
  destruct (RegisterChannel_success_inv _ _ _ _ _ _ _ _ _ H1)
    as (t' & info & _ & Hinfo & Hfresh & -> & _).
  set (t1 := withTwitchData _ t').
  assert (Hk : twitchData t1 !! k = Some (appendChannel g cid info)).
  { unfold t1. simpl. by rewrite lookup_insert_eq. }
  split.
  - unfold RegisterChannel. rewrite (ensureTwitchChannel_known _ _ _ _ Hk).
    assert (Hin : cid ∈ ChannelID <$> channelsOf (appendChannel g cid info) g).
    { rewrite channelsOf_appendChannel, fmap_app. apply elem_of_app. right.
      simpl. apply elem_of_cons. by left. }
    destruct (getChannelIdx_present _ _ _ _ _ Hk Hin) as (n & ? & _ & _ & ->).
    by assert ((Z.of_nat n <? 0) = false) as -> by (apply Z.ltb_ge; lia).
  - exists (appendChannel g cid info). split; [done|].
    rewrite channelsOf_appendChannel, filter_app.
    assert (filter (λ dc, ChannelID dc = cid) (channelsOf info g) = []) as ->.
    { apply elem_of_nil_inv. intros x [Hx Hin]%list_elem_of_filter.
      apply Hfresh. apply list_elem_of_fmap. by exists x. }
    by rewrite filter_cons_True.
Qed.

(** C8: when the twitch channel has no entry yet and the credential can
    neither be validated nor refreshed, [RegisterChannel] returns
    [ErrInvalidToken]; the registry and the disk are as before, so neither
    an entry nor a subscription has been created. *)
Theorem RegisterChannel_invalid_token c w k g cid t d :
  twitchData t !! k = None →
  (validateAndRefreshAuthToken c t).2 = false →
  ∃ t', RegisterChannel c w k g cid t d = Some (t', d, Some ErrInvalidToken)
        ∧ twitchData t' = twitchData t.
Proof.
  intros Hk Hv. exists (validateAndRefreshAuthToken c t).1. split.
  - unfold RegisterChannel. by rewrite (ensureTwitchChannel_invalid _ _ _ Hk Hv).
  - apply validateAndRefreshAuthToken_twitchData.
Qed.


(** ** Unregistering *)

(** C9: when no subscription of the discord channel exists under the twitch
    channel and guild (the twitch channel may have no entry at all),
    [UnregisterChannel] returns [false], and the session and the disk are
    exactly what they were. *)
Theorem UnregisterChannel_not_registered w k g cid t d :
  (∀ info, twitchData t !! k = Some info → cid ∉ ChannelID <$> channelsOf info g) →
  UnregisterChannel w k g cid t d = Some (t, d, false).
Proof.
  intros H. unfold UnregisterChannel. by rewrite (getChannelIdx_absent _ _ _ _ H).
Qed.

(** ** Shutdown *)

Lemma pruneGuilds_lookup gs (dcs : gmap string (list discordChannel)) g :
  pruneGuilds gs dcs !! g
  = match gs !! g with Some false => None | _ => dcs !! g end.
Proof.
  unfold pruneGuilds. revert g.
  apply (map_fold_weak_ind
    (λ r (m : gmap string bool),
       ∀ g, r !! g = match m !! g with Some false => None | _ => dcs !! g end)).
  - intros g. by rewrite lookup_empty.
  - intros i x m r Hi IH g. destruct (decide (i = g)) as [->|Hne].
    + rewrite lookup_insert_eq. destruct x; simpl.
      * by rewrite IH, Hi.
      * by rewrite lookup_delete_eq.
    + rewrite lookup_insert_ne by done. destruct x; simpl.
      * apply IH.
      * rewrite lookup_delete_ne by done. apply IH.
Qed.

Lemma Close_twitchData w gs t d k :
  twitchData (Close w gs t d).1.1 !! k
  = (λ tcInfo, withDiscordChannels (pruneGuilds gs (DiscordChannels tcInfo)) tcInfo)
      <$> twitchData t !! k.
Proof.
  unfold Close. destruct (WriteGobToDisk _ _ _ _) as [d' err]. simpl.
  by rewrite lookup_fmap.
Qed.

Lemma Close_subscribed w gs t d k g dc :
  subscribed (twitchData (Close w gs t d).1.1) k g dc
  ↔ subscribed (twitchData t) k g dc ∧ gs !! g ≠ Some false.
Proof.
  unfold subscribed. setoid_rewrite Close_twitchData. split.
  - intros (info' & Hk & Hdc).
    destruct (twitchData t !! k) as [info|] eqn:Hinfo; simplify_eq/=.
    unfold channelsOf in Hdc. simpl in Hdc. rewrite pruneGuilds_lookup in Hdc.
    destruct (gs !! g) as [[]|] eqn:Hg; simpl in Hdc.
    + split; [|done]. by exists info.
    + by apply elem_of_nil in Hdc.
    + split; [|done]. by exists info.
  - intros [(info & Hk & Hdc) Hg]. rewrite Hk. simpl. eexists. split; [done|].
    unfold channelsOf. simpl. rewrite pruneGuilds_lookup.
    by destruct (gs !! g) as [[]|].
Qed.

(** C1, at the shutdown: with guild [g1] marked inactive, [Close] deletes
    the only guild of [alice] and keeps the entry of [alice], whose map of
    subscriptions is now empty; this registry is what it writes to disk. *)
Theorem Close_leaves_empty_entry :
  everyEntrySubscribed (twitchData exampleSession)
  ∧ ∃ info,
      twitchData (Close true {["g1" := false]} exampleSession ∅).1.1 !! "alice" = Some info
      ∧ DiscordChannels info = ∅
      ∧ (Close true {["g1" := false]} exampleSession ∅).1.2 !! "session1"
        = Some {["alice" := info]}
      ∧ ¬ everyEntrySubscribed (twitchData (Close true {["g1" := false]} exampleSession ∅).1.1).
Proof.
  split.
  - intros k info Hk. simpl in Hk. apply lookup_singleton_Some in Hk as [<- <-].
    exists "g1", [exampleChannel]. by split.
  - exists (withDiscordChannels ∅ exampleInfo).
    assert (H : twitchData (Close true {["g1" := false]} exampleSession ∅).1.1 !! "alice"
                = Some (withDiscordChannels ∅ exampleInfo)) by by vm_compute.
    split_and!; [done|done|by vm_compute|].
    intros Hall. destruct (Hall _ _ H) as (g & l & Hg & _). simpl in Hg.
    by rewrite lookup_empty in Hg.
Qed.

(** C2 as stated fails: a guild that is absent from [guildStatus] keeps its
    subscriptions through [Close]. *)
Lemma Close_keeps_absent_guild :
  ¬ (∀ w gs t d k g dc,
       gs !! g ≠ Some true → ¬ subscribed (twitchData (Close w gs t d).1.1) k g dc).
Proof.
  intros H. apply (H true ∅ exampleSession ∅ "alice" "g1" exampleChannel); [done|].
  apply Close_subscribed. split; [|done].
  exists exampleInfo. split; [done|]. unfold channelsOf. simpl.
  rewrite lookup_singleton_eq. simpl. apply elem_of_cons. by left.
Qed.

(** C2, as the code has it: [Close] marks the session as not connected and
    drops the subscriptions of exactly those guilds whose status is present
    and [false]; guilds that are absent from [guildStatus] or marked [true]
    keep theirs.  It then writes the registry, and when the write succeeds
    a new session of that name starts from the pruned registry. *)
Theorem Close_prunes_inactive w gs t d t' d' err :
  Close w gs t d = (t', d', err) →
  isConnected t' = false
  ∧ (∀ k g dc, subscribed (twitchData t') k g dc
               ↔ subscribed (twitchData t) k g dc ∧ gs !! g ≠ Some false)
  ∧ (err = None →
       twitchData (New None (name t) d').1 = twitchData t'
       ∧ ∀ k g dc, gs !! g = Some false →
           ¬ subscribed (twitchData (New None (name t) d').1) k g dc).
Proof.
  intros HC.
  assert (Hsub : ∀ k g dc, subscribed (twitchData t') k g dc
               ↔ subscribed (twitchData t) k g dc ∧ gs !! g ≠ Some false).
  { intros k g dc. rewrite <- (Close_subscribed w gs t d). by rewrite HC. }
  split_and!; [|done|].
  - unfold Close in HC. destruct (WriteGobToDisk _ _ _ _). by simplify_eq.
  - intros ->.
    assert (Hload : twitchData (New None (name t) d').1 = twitchData t').
    { unfold Close, WriteGobToDisk in HC. destruct w; simpl in HC; [|done].
      injection HC as <- <-.
      unfold New, readGobFromDisk. by rewrite lookup_insert_eq. }
    split; [done|]. intros k g dc Hg. rewrite Hload, Hsub. by intros [_ ?].
Qed.

(** ** The monitor: one guild *)

Lemma notifyLive_flags k g info l :
  (notifyLive k g info l).1
  = (λ dc, if negb (LiveNotificationSent dc) then withSent true dc else dc) <$> l.
Proof.
  induction l as [|dc l IH]; [done|]. simpl.
  destruct (notifyLive k g info l) as [l' out]. simpl in IH. subst.
  by destruct (LiveNotificationSent dc).
Qed.

Lemma notifyLive_messages k g info l :
  (notifyLive k g info l).2
  = liveMessage k g info <$> filter (λ dc, LiveNotificationSent dc = false) l.
Proof.
  induction l as [|dc l IH]; [done|]. simpl.
  destruct (notifyLive k g info l) as [l' out]. simpl in IH. subst.
  destruct (LiveNotificationSent dc) eqn:Hs; simpl.
  - rewrite filter_cons_False; [done|]. by rewrite Hs.
  - by rewrite filter_cons_True.
Qed.

Lemma notifyOffline_flags k g info l :
  (notifyOffline k g info l).1
  = (λ dc, if LiveNotificationSent dc then withSent false dc else dc) <$> l.
Proof.
  induction l as [|dc l IH]; [done|]. simpl.
  destruct (notifyOffline k g info l) as [l' out]. simpl in IH. subst.
  by destruct (LiveNotificationSent dc).
Qed.

Lemma notifyOffline_messages k g info l :
  (notifyOffline k g info l).2
  = offlineMessage k g info <$> filter (λ dc, LiveNotificationSent dc = true) l.
Proof.
  induction l as [|dc l IH]; [done|]. simpl.
  destruct (notifyOffline k g info l) as [l' out]. simpl in IH. subst.
  destruct (LiveNotificationSent dc) eqn:Hs; simpl.
  - by rewrite filter_cons_True.
  - rewrite filter_cons_False; [done|]. by rewrite Hs.
Qed.

Lemma guildReady_true gs g : guildReady gs g = true ↔ gs !! g = Some true.
Proof. unfold guildReady. destruct (gs !! g) as [[]|]; naive_solver. Qed.

Lemma guildReady_SetGuildActive gs g : guildReady (SetGuildActive g gs) g = true.
Proof. unfold guildReady, SetGuildActive. by rewrite lookup_insert_eq. Qed.

Lemma guildReady_SetGuildInactive gs g : guildReady (SetGuildInactive g gs) g = false.
Proof. unfold guildReady, SetGuildInactive. by rewrite lookup_insert_eq. Qed.

Lemma guildReady_SetGuildUnavailable gs g : guildReady (SetGuildUnavailable g gs) g = false.
Proof. unfold guildReady, SetGuildUnavailable. by rewrite lookup_delete_eq. Qed.

(** ** Messages of one key among those of a whole map *)

Lemma bind_map_to_list_filter {A B} (m : gmap string A) (f : string * A → list B)
    (P : B → Prop) `{!∀ b, Decision (P b)} (k : string) :
  (∀ k' a b, b ∈ f (k', a) → P b → k' = k) →
  filter P (map_to_list m ≫= f)
  ≡ₚ match m !! k with Some a => filter P (f (k, a)) | None => [] end.
Proof.
  intros Htag. induction m as [|i x m Hi IH] using map_ind.
  - by rewrite map_to_list_empty, lookup_empty.
  - rewrite (map_to_list_insert _ _ _ Hi), bind_cons, filter_app, IH.
    destruct (decide (i = k)) as [->|Hne].
    + rewrite lookup_insert_eq, Hi. by rewrite app_nil_r.
    + rewrite lookup_insert_ne by done.
      assert (filter P (f (i, x)) = []) as ->; [|done].
      apply elem_of_nil_inv. intros b [HP Hb]%list_elem_of_filter.
      by apply Hne, (Htag i x b).
Qed.

Lemma elem_of_bind_map_to_list {A B} (m : gmap string A) (f : string * A → list B) b :
  b ∈ map_to_list m ≫= f ↔ ∃ k a, m !! k = Some a ∧ b ∈ f (k, a).
Proof.
  rewrite list_elem_of_bind. split.
  - intros [[k a] [Hb Hka]]. apply elem_of_map_to_list in Hka. by exists k, a.
  - intros (k & a & Hka & Hb). exists (k, a). by rewrite elem_of_map_to_list.
Qed.

Lemma filter_all {A} (P : A → Prop) `{!∀ x, Decision (P x)} (l : list A) :
  (∀ x, x ∈ l → P x) → filter P l = l.
Proof.
  induction l as [|a l IH]; intros Hall; [done|].
  rewrite filter_cons_True by (apply Hall, elem_of_cons; by left).
  f_equal. apply IH. intros x Hx. apply Hall, elem_of_cons. by right.
Qed.

Lemma notifyLive_origin k g info l m :
  m ∈ (notifyLive k g info l).2 →
  fromSubscription k g m ∧ isLive (sent m) = true
  ∧ ∃ dc, dc ∈ l ∧ LiveNotificationSent dc = false ∧ recipient (sent m) = ChannelID dc.
Proof.
  rewrite notifyLive_messages.
  intros (dc & -> & [Hs Hdc]%list_elem_of_filter)%list_elem_of_fmap.
  split_and!; [done|done|]. by exists dc.
Qed.

Lemma notifyOffline_origin k g info l m :
  m ∈ (notifyOffline k g info l).2 →
  fromSubscription k g m ∧ isLive (sent m) = false
  ∧ ∃ dc, dc ∈ l ∧ LiveNotificationSent dc = true ∧ recipient (sent m) = ChannelID dc.
Proof.
  rewrite notifyOffline_messages.
  intros (dc & -> & [Hs Hdc]%list_elem_of_filter)%list_elem_of_fmap.
  split_and!; [done|done|]. by exists dc.
Qed.

(** ** The monitor: one twitch channel *)

Section Evaluate.

Variable D : time.Duration.

Lemma forGuilds_messages body gs (dcs : gmap string (list discordChannel)) k g :
  (∀ g' l m, m ∈ (body g' l).2 → fromSubscription k g' m) →
  filter (fromSubscription k g) (forGuilds body gs dcs).2
  ≡ₚ match dcs !! g with
     | Some l => if guildReady gs g then (body g l).2 else []
     | None => []
     end.
Proof.
  intros Htag. unfold forGuilds. simpl.
  rewrite (bind_map_to_list_filter _ _ _ g).
  - destruct (dcs !! g) as [l|]; [|done]. simpl.
    destruct (guildReady gs g); [|done].
    rewrite filter_all; [done|]. intros m Hm. apply (Htag _ _ _ Hm).
  - intros g' l m Hm [_ Hg]. simpl in Hm.
    destruct (guildReady gs g'); [|by apply elem_of_nil in Hm].
    destruct (Htag _ _ _ Hm) as [_ Hg']. congruence.
Qed.

Lemma forGuilds_flags body gs (dcs : gmap string (list discordChannel)) g :
  (forGuilds body gs dcs).1 !! g
  = (λ l, if guildReady gs g then (body g l).1 else l) <$> dcs !! g.
Proof. unfold forGuilds. simpl. rewrite map_lookup_imap. by destruct (dcs !! g). Qed.

Lemma forGuilds_elem_of body gs (dcs : gmap string (list discordChannel)) m :
  m ∈ (forGuilds body gs dcs).2 →
  ∃ g l, dcs !! g = Some l ∧ guildReady gs g = true ∧ m ∈ (body g l).2.
Proof.
  unfold forGuilds. simpl. rewrite elem_of_bind_map_to_list.
  intros (g & l & Hg & Hm). simpl in Hm. exists g, l.
  destruct (guildReady gs g); [done|]. by apply elem_of_nil in Hm.
Qed.

Lemma evaluate_messages gs now k info g :
  filter (fromSubscription k g) (evaluate D gs now k info).2
  ≡ₚ guildMessages D gs now k g info.
Proof.
  unfold evaluate, guildMessages, channelsOf.
  destruct (confirmedLive D now info).
  - destruct (forGuilds _ _ _) as [dcs out] eqn:Hf. simpl.
    replace out with (forGuilds (λ guild, notifyLive k guild info) gs
                        (DiscordChannels info)).2 by by rewrite Hf.
    rewrite forGuilds_messages; [|intros ??? Hin; by apply notifyLive_origin in Hin as [? _]].
    destruct (DiscordChannels info !! g); simpl; [done|]. by destruct (guildReady gs g).
  - destruct (confirmedOffline D now info).
    + destruct (forGuilds _ _ _) as [dcs out] eqn:Hf. simpl.
      replace out with (forGuilds (λ guild, notifyOffline k guild info) gs
                          (DiscordChannels info)).2 by by rewrite Hf.
      rewrite forGuilds_messages; [|intros ??? Hin; by apply notifyOffline_origin in Hin as [? _]].
      destruct (DiscordChannels info !! g); simpl; [done|]. by destruct (guildReady gs g).
    + simpl. by destruct (guildReady gs g).
Qed.

Lemma evaluate_flags gs now k info g :
  channelsOf (evaluate D gs now k info).1 g = guildFlags D gs now k g info.
Proof.
  unfold evaluate, guildFlags, channelsOf.
  destruct (confirmedLive D now info).
  - destruct (forGuilds _ _ _) as [dcs out] eqn:Hf. simpl.
    replace dcs with (forGuilds (λ guild, notifyLive k guild info) gs
                        (DiscordChannels info)).1 by by rewrite Hf.
    rewrite forGuilds_flags.
    destruct (DiscordChannels info !! g); simpl; [done|]. by destruct (guildReady gs g).
  - destruct (confirmedOffline D now info).
    + destruct (forGuilds _ _ _) as [dcs out] eqn:Hf. simpl.
      replace dcs with (forGuilds (λ guild, notifyOffline k guild info) gs
                          (DiscordChannels info)).1 by by rewrite Hf.
      rewrite forGuilds_flags.
      destruct (DiscordChannels info !! g); simpl; [done|]. by destruct (guildReady gs g).
    + simpl. by destruct (guildReady gs g).
Qed.

Lemma evaluate_times gs now k info :
  StartTime (evaluate D gs now k info).1 = StartTime info
  ∧ EndTime (evaluate D gs now k info).1 = EndTime info.
Proof.
  unfold evaluate. destruct (confirmedLive D now info).
  - by destruct (forGuilds _ _ _).
  - destruct (confirmedOffline D now info); [|done]. by destruct (forGuilds _ _ _).
Qed.

(** Every message comes from a subscription of a guild that is ready, and
    carries the twitch channel and the guild of that subscription. *)
Lemma evaluate_origin gs now k info m :
  m ∈ (evaluate D gs now k info).2 →
  fromTwitch m = k
  ∧ guildReady gs (fromGuild m) = true
  ∧ m ∈ guildMessages D gs now k (fromGuild m) info.
Proof.
  intros Hm.
  assert (Hk : fromTwitch m = k ∧ guildReady gs (fromGuild m) = true).
  { unfold evaluate in Hm. destruct (confirmedLive D now info).
    - destruct (forGuilds _ _ _) as [dcs out] eqn:Hf. simpl in Hm.
      replace out with (forGuilds (λ guild, notifyLive k guild info) gs
                          (DiscordChannels info)).2 in Hm by by rewrite Hf.
      apply forGuilds_elem_of in Hm as (g & l & _ & Hr & Hm).
      apply notifyLive_origin in Hm as [[? <-] _]. done.
    - destruct (confirmedOffline D now info); [|by apply elem_of_nil in Hm].
      destruct (forGuilds _ _ _) as [dcs out] eqn:Hf. simpl in Hm.
      replace out with (forGuilds (λ guild, notifyOffline k guild info) gs
                          (DiscordChannels info)).2 in Hm by by rewrite Hf.
      apply forGuilds_elem_of in Hm as (g & l & _ & Hr & Hm).
      apply notifyOffline_origin in Hm as [[? <-] _]. done. }
  destruct Hk as [Hk Hr]. split_and!; [done|done|].
  rewrite <- evaluate_messages. apply list_elem_of_filter. by split.
Qed.

End Evaluate.

(** ** The monitor: one turn of the loop *)

Lemma populate_DiscordChannels now streams k info :
  DiscordChannels (populate now streams k info) = DiscordChannels info.
Proof. unfold populate. by destruct (findLive k streams). Qed.

Lemma populate_channelsOf now streams k info g :
  channelsOf (populate now streams k info) g = channelsOf info g.
Proof. unfold channelsOf. by rewrite populate_DiscordChannels. Qed.

Lemma observe_lookup w (td : gmap string twitchChannelInfo) k :
  observe w td !! k
  = populate (stampClock w k)
      (helix.Streams (helix.GetStreams (client w) (map_to_list td).*1)) k
    <$> td !! k.
Proof.
  unfold observe, populateAll. rewrite map_lookup_imap. by destruct (td !! k).
Qed.

Section Cycle.

Variable D : time.Duration.

Lemma evaluateAll_lookup w (td : gmap string twitchChannelInfo) k :
  (evaluateAll D w td).1 !! k
  = (λ info, (evaluate D (guildStatus w) (sinceClock w k) k info).1) <$> td !! k.
Proof.
  unfold evaluateAll. simpl. rewrite map_lookup_imap. by destruct (td !! k).
Qed.

Lemma evaluateAll_origin w (td : gmap string twitchChannelInfo) m :
  m ∈ (evaluateAll D w td).2 →
  ∃ info, td !! fromTwitch m = Some info
    ∧ guildReady (guildStatus w) (fromGuild m) = true
    ∧ m ∈ guildMessages D (guildStatus w) (sinceClock w (fromTwitch m))
            (fromTwitch m) (fromGuild m) info.
Proof.
  unfold evaluateAll. simpl. rewrite elem_of_bind_map_to_list.
  intros (k & info & Hk & Hm). simpl in Hm.
  apply evaluate_origin in Hm as (<- & Hr & Hm). by exists info.
Qed.


Lemma monitorCycle_skipped w ts :
  (validateAndRefreshAuthToken (client w) ts).2 = false →
  monitorCycle D w ts = ((validateAndRefreshAuthToken (client w) ts).1, []).
Proof.
  intros Hv. unfold monitorCycle.
  destruct (validateAndRefreshAuthToken (client w) ts) as [ts1 ok].
  simpl in Hv. by subst.
Qed.

Lemma monitorCycle_taken w ts :
  (validateAndRefreshAuthToken (client w) ts).2 = true →
  monitorCycle D w ts
  = (withTwitchData (evaluateAll D w (observe w (twitchData ts))).1
       (validateAndRefreshAuthToken (client w) ts).1,
     (evaluateAll D w (observe w (twitchData ts))).2).
Proof.
  intros Hv. unfold monitorCycle.
  pose proof (validateAndRefreshAuthToken_twitchData (client w) ts) as Htd.
  destruct (validateAndRefreshAuthToken (client w) ts) as [ts1 ok].
  simpl in *. subst. rewrite Htd. by destruct (evaluateAll D w (observe w (twitchData ts))).
Qed.

(** The registry after one turn, entry by entry. *)
Lemma monitorCycle_lookup w ts k :
  twitchData (monitorCycle D w ts).1 !! k
  = if (validateAndRefreshAuthToken (client w) ts).2
    then (λ info, (evaluate D (guildStatus w) (sinceClock w k) k info).1)
           <$> observe w (twitchData ts) !! k
    else twitchData ts !! k.
Proof.
  destruct (validateAndRefreshAuthToken (client w) ts).2 eqn:Hv.
  - rewrite (monitorCycle_taken _ _ Hv). simpl. apply evaluateAll_lookup.
  - rewrite (monitorCycle_skipped _ _ Hv). simpl.
    by rewrite validateAndRefreshAuthToken_twitchData.
Qed.


Lemma monitorCycle_origin w ts m :
  m ∈ (monitorCycle D w ts).2 →
  ∃ info, observe w (twitchData ts) !! fromTwitch m = Some info
    ∧ guildStatus w !! fromGuild m = Some true
    ∧ m ∈ guildMessages D (guildStatus w) (sinceClock w (fromTwitch m))
            (fromTwitch m) (fromGuild m) info.
Proof.
  destruct (validateAndRefreshAuthToken (client w) ts).2 eqn:Hv.
  - rewrite (monitorCycle_taken _ _ Hv). simpl.
    intros (info & ? & ?%guildReady_true & ?)%evaluateAll_origin. by exists info.
  - rewrite (monitorCycle_skipped _ _ Hv). simpl. by intros ?%elem_of_nil.
Qed.

(** C7: in a turn of the monitor, a guild whose entry in [guildStatus] is
    absent or [false] gets no message, live or offline, whatever the
    timestamps are, and the flags of its subscriptions stay as they were. *)
Theorem monitorCycle_skips_unready_guild w ts g :
  guildStatus w !! g ≠ Some true →
  (∀ m, m ∈ (monitorCycle D w ts).2 → fromGuild m ≠ g)
  ∧ (∀ k info', twitchData (monitorCycle D w ts).1 !! k = Some info' →
       ∃ info, twitchData ts !! k = Some info
               ∧ channelsOf info' g = channelsOf info g).
Proof.
  intros Hg. split.
  - intros m (info & _ & Hr & _)%monitorCycle_origin Heq. by rewrite Heq in Hr.
  - intros k info'. rewrite monitorCycle_lookup.
    destruct (validateAndRefreshAuthToken (client w) ts).2.
    + rewrite observe_lookup.
      destruct (twitchData ts !! k) as [info|]; [|done]. simpl.
      intros [= <-]. exists info. split; [done|].
      rewrite evaluate_flags. unfold guildFlags.
      assert (guildReady (guildStatus w) g = false) as ->.
      { apply not_true_is_false. by rewrite guildReady_true. }
      apply populate_channelsOf.
    + intros ->. by exists info'.
Qed.

End Cycle.

(** ** Live notifications *)




Section Live.

Variable D : time.Duration.




End Live.

(** ** Offline notifications *)



Section Offline.

Variable D : time.Duration.


End Offline.

(** ** Unregistering cascades *)

Lemma UnregisterChannel_found w k g cid t d info :
  twitchData t !! k = Some info →
  cid ∈ ChannelID <$> channelsOf info g →
  ∃ (n : nat) dc s,
    channelsOf info g !! n = Some dc ∧ ChannelID dc = cid
    ∧ s ≡ₚ delete n (channelsOf info g)
    ∧ UnregisterChannel w k g cid t d
      = Some (withTwitchData
                (dropTwitchIfEmpty k
                   (dropGuildIfEmpty g
                      (withDiscordChannels (<[g := s]> (DiscordChannels info)) info))
                   (twitchData t)) t,
              (WriteGobToDisk w (name t)
                 (dropTwitchIfEmpty k
                    (dropGuildIfEmpty g
                       (withDiscordChannels (<[g := s]> (DiscordChannels info)) info))
                    (twitchData t)) d).1,
              true).
Proof.
  intros Hk Hin.
  destruct (getChannelIdx_present _ _ _ _ _ Hk Hin) as (n & dc & Hn & Hdc & Hidx).
  destruct (remove_Some _ _ _ Hn) as (s & Hrem & Hperm).
  exists n, dc, s. split_and!; [done|done|done|].
  unfold UnregisterChannel. rewrite Hidx.
  assert ((0 <=? Z.of_nat n) = true) as -> by (apply Z.leb_le; lia).
  rewrite Hk. simpl. rewrite Hrem. simpl.
  by destruct (WriteGobToDisk _ _ _ _).
Qed.

Lemma UnregisterChannel_runs w k g cid t d :
  is_Some (UnregisterChannel w k g cid t d).
Proof.
  destruct (Z.le_gt_cases 0 (getChannelIdx t k g cid)) as [Hge|Hlt].
  - destruct (getChannelIdx_found _ _ _ _ Hge) as (info & Hk & Hin).
    destruct (UnregisterChannel_found w _ _ _ _ d _ Hk Hin) as (? & ? & ? & _ & _ & _ & ->).
    by eexists.
  - unfold UnregisterChannel.
    assert ((0 <=? getChannelIdx t k g cid) = false) as -> by (apply Z.leb_gt; lia).
    by eexists.
Qed.

Lemma cascade_twitchData k g s info (td : gmap string twitchChannelInfo) :
  dropTwitchIfEmpty k
    (dropGuildIfEmpty g (withDiscordChannels (<[g := s]> (DiscordChannels info)) info)) td
  = if decide (s = []) then
      if decide (delete g (DiscordChannels info) = ∅) then delete k td
      else <[k := withDiscordChannels (delete g (DiscordChannels info)) info]> td
    else <[k := withDiscordChannels (<[g := s]> (DiscordChannels info)) info]> td.
Proof.
  unfold dropTwitchIfEmpty, dropGuildIfEmpty, channelsOf. simpl.
  rewrite lookup_insert_eq. simpl.
  destruct (decide (s = [])) as [->|Hs].
  - rewrite (bool_decide_eq_true_2 (length [] = 0%nat)) by done.
    simpl. rewrite delete_insert_eq.
    destruct (decide (delete g (DiscordChannels info) = ∅)) as [He|He].
    + rewrite bool_decide_eq_true_2; [done|]. by apply map_size_empty_iff.
    + rewrite bool_decide_eq_false_2; [done|]. by rewrite map_size_empty_iff.
  - rewrite (bool_decide_eq_false_2 (length s = 0%nat)) by (by destruct s).
    rewrite bool_decide_eq_false_2; [done|].
    simpl. rewrite map_size_empty_iff. apply insert_non_empty.
Qed.

(** ** Registering and then unregistering every subscriber *)

Lemma elem_of_delete_NoDup {A} (l : list A) (n : nat) (x y : A) :
  NoDup l → l !! n = Some x → y ∈ delete n l ↔ y ∈ l ∧ y ≠ x.
Proof.
  intros Hnd Hn. pose proof (delete_Permutation _ _ _ Hn) as Hp.
  rewrite Hp in Hnd. apply NoDup_cons in Hnd as [Hx _].
  split.
  - intros Hy. split; [|by intros ->].
    rewrite Hp. apply elem_of_cons. by right.
  - intros [Hy Hne]. rewrite Hp in Hy. by apply elem_of_cons in Hy as [->|?].
Qed.

Lemma channelsOf_Some info g cid :
  cid ∈ ChannelID <$> channelsOf info g →
  ∃ l, DiscordChannels info !! g = Some l ∧ channelsOf info g = l.
Proof.
  unfold channelsOf. destruct (DiscordChannels info !! g) as [l|]; simpl.
  - by exists l.
  - by intros ?%elem_of_nil.
Qed.

Lemma describes_empty info : DiscordChannels info = ∅ → describes info ∅.
Proof.
  intros He. split.
  - intros g l. by rewrite He, lookup_empty.
  - intros g cid. unfold channelsOf. rewrite He, lookup_empty. simpl.
    rewrite elem_of_nil. set_solver.
Qed.

Lemma describes_appendChannel info R g cid :
  describes info R → (g, cid) ∉ R →
  describes (appendChannel g cid info) ({[(g, cid)]} ∪ R)
  ∧ DiscordChannels (appendChannel g cid info) ≠ ∅.
Proof.
  intros [Hwf Hmem] Hp. split; [split|].
  - intros g' l. unfold appendChannel. simpl.
    destruct (decide (g = g')) as [<-|Hne].
    + rewrite lookup_insert_eq. intros [= <-]. split; [by destruct (channelsOf info g)|].
      rewrite fmap_app. apply NoDup_app. split_and!.
      * unfold channelsOf. destruct (DiscordChannels info !! g) as [l|] eqn:Hl; simpl.
        -- by apply (Hwf g).
        -- constructor.
      * intros x Hx [->|[]%elem_of_nil]%elem_of_cons. by apply Hp, Hmem.
      * apply NoDup_singleton.
    + rewrite lookup_insert_ne by done. apply Hwf.
  - intros g' cid'. destruct (decide (g = g')) as [<-|Hne].
    + rewrite channelsOf_appendChannel, fmap_app, elem_of_app. simpl.
      rewrite elem_of_union, elem_of_singleton, <- Hmem, elem_of_cons, elem_of_nil.
      split.
      * intros [[= ->]|?]; [right; by left|by left].
      * intros [?|[->|[]]]; [by right|by left].
    + rewrite channelsOf_appendChannel_ne by done.
      rewrite elem_of_union, elem_of_singleton, <- Hmem.
      split; [by intros [[= ? ?]|?]|by right].
  - unfold appendChannel. simpl. apply insert_non_empty.
Qed.

Lemma describes_remove info R g cid n dc s :
  describes info R →
  channelsOf info g !! n = Some dc → ChannelID dc = cid →
  s ≡ₚ delete n (channelsOf info g) →
  describes
    (withDiscordChannels
       (if decide (s = []) then delete g (DiscordChannels info)
        else <[g := s]> (DiscordChannels info)) info)
    (R ∖ {[(g, cid)]}).
Proof.
  intros [Hwf Hmem] Hn Hdc Hs.
  assert (Hin : cid ∈ ChannelID <$> channelsOf info g).
  { apply list_elem_of_fmap. exists dc. split; [done|]. by eapply list_elem_of_lookup_2. }
  destruct (channelsOf_Some _ _ _ Hin) as (l & Hl & Hch). rewrite Hch in *.
  destruct (Hwf _ _ Hl) as [_ Hnd].
  assert (Hids : ∀ c, c ∈ ChannelID <$> s ↔ c ∈ ChannelID <$> l ∧ c ≠ cid).
  { intros c. rewrite Hs, list_fmap_delete.
    apply elem_of_delete_NoDup; [done|]. by rewrite list_lookup_fmap, Hn, <- Hdc. }
  split.
  - intros g' l'. simpl. destruct (decide (g = g')) as [<-|Hne].
    + destruct (decide (s = [])) as [->|Hne'].
      * by rewrite lookup_delete_eq.
      * rewrite lookup_insert_eq. intros [= <-]. split; [done|].
        rewrite Hs, list_fmap_delete.
        eapply sublist_NoDup; [done|apply sublist_delete].
    + destruct (decide (s = [])); rewrite ?lookup_delete_ne, ?lookup_insert_ne by done;
        apply Hwf.
  - intros g' cid'. rewrite elem_of_difference, elem_of_singleton, Hmem.
    unfold channelsOf at 2. simpl. destruct (decide (g = g')) as [<-|Hne].
    + rewrite Hch.
      assert (default [] ((if decide (s = []) then delete g (DiscordChannels info)
                           else <[g := s]> (DiscordChannels info)) !! g) = s) as ->.
      { destruct (decide (s = [])) as [->|].
        - by rewrite lookup_delete_eq.
        - by rewrite lookup_insert_eq. }
      rewrite Hids. split.
      * intros [? Hne]. split; [done|]. intros ->. by apply Hne.
      * intros [? Hne]. split; [done|]. intros [= ->]. by apply Hne.
    + assert ((if decide (s = []) then delete g (DiscordChannels info)
               else <[g := s]> (DiscordChannels info)) !! g'
              = DiscordChannels info !! g') as ->.
      { destruct (decide (s = [])); by rewrite ?lookup_delete_ne, ?lookup_insert_ne. }
      fold (channelsOf info g'). split; [by intros [? _]|].
      intros ?. split; [done|]. by intros [= -> _].
Qed.

(** A described entry with a guild left has a subscription left. *)
Lemma describes_non_empty info R :
  describes info R → DiscordChannels info ≠ ∅ → R ≠ ∅.
Proof.
  intros [Hwf Hmem] Hne HR.
  apply map_choose in Hne as (g & l & Hl).
  destruct (Hwf _ _ Hl) as [Hnil _]. destruct l as [|dc l]; [done|].
  assert ((g, ChannelID dc) ∈ R) as Hin; [|by rewrite HR in Hin; set_solver].
  apply Hmem. unfold channelsOf. rewrite Hl. simpl. apply elem_of_cons. by left.
Qed.

Lemma RegisterChannel_new_subscription c w k g cid t d t1 info :
  ensureTwitchChannel c k t = (t1, None) →
  twitchData t1 !! k = Some info →
  cid ∉ ChannelID <$> channelsOf info g →
  RegisterChannel c w k g cid t d
  = Some (withTwitchData (<[k := appendChannel g cid info]> (twitchData t1)) t1,
          (WriteGobToDisk w (name t1)
             (<[k := appendChannel g cid info]> (twitchData t1)) d).1,
          None).
Proof.
  intros He Hk Hc. unfold RegisterChannel. rewrite He.
  rewrite getChannelIdx_absent by (intros info' ?; by simplify_eq).
  simpl. rewrite Hk. simpl. by destruct (WriteGobToDisk _ _ _ _).
Qed.

Section RoundTrip.

Variable k : string.
Variable td0 : gmap string twitchChannelInfo.
Hypothesis Hfresh : td0 !! k = None.

Lemma register_step c w g cid t d R :
  entryOf k td0 (twitchData t) R →
  (g, cid) ∉ R →
  (R = ∅ → (validateAndRefreshAuthToken c t).2 = true
           ∧ helix.Users (helix.GetUsers c [k]) ≠ []) →
  ∃ t1 d1, RegisterChannel c w k g cid t d = Some (t1, d1, None)
           ∧ entryOf k td0 (twitchData t1) ({[(g, cid)]} ∪ R).
Proof.
  intros [[-> Htd]|(info & Htd & Hne & Hdesc)] Hp Hfirst.
  - destruct (Hfirst eq_refl) as [Hv Hu].
    destruct (helix.Users (helix.GetUsers c [k])) as [|u us] eqn:Husers; [done|].
    pose proof (validateAndRefreshAuthToken_twitchData c t) as Htv.
    set (entry := {| DisplayName := helix.DisplayName u;
                     LogoURL := helix.ProfileImageURL u;
                     StreamTitle := ""; GameID := ""; ThumbnailURL := "";
                     StartTime := time.zero; EndTime := time.zero;
                     DiscordChannels := ∅ |}).
    assert (He : ensureTwitchChannel c k t
                 = (withTwitchData (<[k := entry]> td0)
                      (validateAndRefreshAuthToken c t).1, None)).
    { unfold ensureTwitchChannel. rewrite Htd, Hfresh.
      destruct (validateAndRefreshAuthToken c t) as [tv ok]. simpl in *. subst ok.
      by rewrite Husers, Htv, Htd. }
    destruct (describes_appendChannel entry ∅ g cid) as [Hd' Hne'];
      [by apply describes_empty|done|].
    eexists _, _. split.
    + apply (RegisterChannel_new_subscription _ _ _ _ _ _ _ _ entry He).
      * simpl. by rewrite lookup_insert_eq.
      * unfold channelsOf. simpl. rewrite lookup_empty. simpl. by intros ?%elem_of_nil.
    + right. exists (appendChannel g cid entry). simpl.
      rewrite insert_insert_eq. done.
  - assert (Hk : twitchData t !! k = Some info) by by rewrite Htd, lookup_insert_eq.
    destruct (describes_appendChannel info R g cid Hdesc Hp) as [Hd' Hne'].
    eexists _, _. split.
    + apply (RegisterChannel_new_subscription _ _ _ _ _ _ _ _ info
               (ensureTwitchChannel_known c _ _ _ Hk) Hk).
      destruct Hdesc as [_ Hmem]. by rewrite <- Hmem.
    + right. exists (appendChannel g cid info). simpl.
      rewrite Htd, insert_insert_eq. done.
Qed.

Lemma unregister_step w g cid t d R :
  entryOf k td0 (twitchData t) R →
  (g, cid) ∈ R →
  ∃ t1 d1, UnregisterChannel w k g cid t d = Some (t1, d1, true)
           ∧ entryOf k td0 (twitchData t1) (R ∖ {[(g, cid)]}).
Proof.
  intros [[-> _]|(info & Htd & Hne & Hdesc)] Hp; [set_solver|].
  assert (Hk : twitchData t !! k = Some info) by by rewrite Htd, lookup_insert_eq.
  assert (Hin : cid ∈ ChannelID <$> channelsOf info g) by by apply Hdesc.
  destruct (UnregisterChannel_found w _ _ _ _ d _ Hk Hin)
    as (n & dc & s & Hn & Hdc & Hs & ->).
  eexists _, _. split; [done|]. simpl. rewrite cascade_twitchData.
  pose proof (describes_remove _ _ _ _ _ _ _ Hdesc Hn Hdc Hs) as Hd'.
  destruct (decide (s = [])) as [->|Hsne].
  - destruct (decide (delete g (DiscordChannels info) = ∅)) as [He|He].
    + left. split.
      * destruct (decide (R ∖ {[(g, cid)]} = ∅)) as [|HR]; [done|].
        apply set_choose_L in HR as [[g' cid'] Hx].
        destruct Hd' as [_ Hmem]. apply Hmem in Hx.
        unfold channelsOf in Hx. simpl in Hx. rewrite He, lookup_empty in Hx.
        by apply elem_of_nil in Hx.
      * rewrite Htd, delete_insert_eq. by apply delete_id.
    + right. eexists. split; [by rewrite Htd, insert_insert_eq|]. split; done.
  - right. eexists. split; [by rewrite Htd, insert_insert_eq|].
    split; [apply insert_non_empty|done].
Qed.

Lemma registerAll_entry c w subs : ∀ R t d,
  entryOf k td0 (twitchData t) R →
  NoDup subs →
  (∀ p, p ∈ subs → p ∉ R) →
  (R = ∅ → subs ≠ [] → (validateAndRefreshAuthToken c t).2 = true
                        ∧ helix.Users (helix.GetUsers c [k]) ≠ []) →
  ∃ t1 d1, registerAll c w k subs t d = Some (t1, d1, replicate (length subs) None)
           ∧ entryOf k td0 (twitchData t1) (list_to_set subs ∪ R).
Proof.
  induction subs as [|[g cid] subs IH]; intros R t d Hentry Hnd Hout Hfirst.
  - exists t, d. split; [done|]. simpl. by rewrite (left_id_L ∅ (∪)).
  - apply NoDup_cons in Hnd as [Hhd Hnd].
    destruct (register_step c w g cid t d R Hentry) as (t1 & d1 & Hreg & Hentry1).
    { apply Hout, elem_of_cons. by left. }
    { intros HR. by apply Hfirst. }
    destruct (IH ({[(g, cid)]} ∪ R) t1 d1 Hentry1 Hnd) as (t2 & d2 & Hall & Hentry2).
    { intros p Hp [->%elem_of_singleton|HpR]%elem_of_union; [done|].
      apply (Hout p); [|done]. apply elem_of_cons. by right. }
    { intros HR. exfalso.
      assert (Hin : (g, cid) ∈ ({[(g, cid)]} ∪ R : gset (string * string))).
      { apply elem_of_union. left. by apply elem_of_singleton. }
      rewrite HR in Hin. by apply not_elem_of_empty in Hin. }
    exists t2, d2. split.
    + simpl. rewrite Hreg. simpl. rewrite Hall. done.
    + rewrite list_to_set_cons.
      replace (({[(g, cid)]} ∪ list_to_set subs) ∪ R)
        with (list_to_set subs ∪ ({[(g, cid)]} ∪ R) : gset (string * string)); [done|].
      apply set_eq. intros p. rewrite !elem_of_union. tauto.
Qed.

Lemma unregisterAll_entry w subs : ∀ R t d,
  entryOf k td0 (twitchData t) R →
  NoDup subs →
  (∀ p, p ∈ subs → p ∈ R) →
  ∃ t1 d1, unregisterAll w k subs t d = Some (t1, d1, replicate (length subs) true)
           ∧ entryOf k td0 (twitchData t1) (R ∖ list_to_set subs).
Proof.
  induction subs as [|[g cid] subs IH]; intros R t d Hentry Hnd Hin.
  - exists t, d. split; [done|]. simpl. by rewrite difference_empty_L.
  - apply NoDup_cons in Hnd as [Hhd Hnd].
    destruct (unregister_step w g cid t d R Hentry) as (t1 & d1 & Hun & Hentry1).
    { apply Hin, elem_of_cons. by left. }
    destruct (IH (R ∖ {[(g, cid)]}) t1 d1 Hentry1 Hnd) as (t2 & d2 & Hall & Hentry2).
    { intros p Hp. apply elem_of_difference. split.
      - apply Hin, elem_of_cons. by right.
      - intros ->%elem_of_singleton. done. }
    exists t2, d2. split.
    + simpl. rewrite Hun. simpl. rewrite Hall. done.
    + rewrite list_to_set_cons.
      replace (R ∖ ({[(g, cid)]} ∪ list_to_set subs))
        with (R ∖ {[(g, cid)]} ∖ list_to_set subs : gset (string * string)); [done|].
      apply set_eq. intros p. rewrite !elem_of_difference, elem_of_union. tauto.
Qed.

Lemma entryOf_empty td : entryOf k td0 td ∅ → td = td0.
Proof.
  intros [[_ ->]|(info & _ & Hne & Hdesc)]; [done|].
  by destruct (describes_non_empty _ _ Hdesc Hne).
Qed.

End RoundTrip.

(** C5: unregistering an existing subscription removes it from its guild's
    list (the rest of the list is kept, in some order); a guild whose list
    is now empty is deleted from the entry, and an entry without guilds is
    deleted from the registry.  So, for a twitch channel that had no entry,
    registering it for any number of distinct guild and discord channel
    pairs and then unregistering every one of them, in any order, gives
    back the registry as it was. *)
Theorem UnregisterChannel_cascade :
  (∀ w k g cid t d info,
     twitchData t !! k = Some info →
     cid ∈ ChannelID <$> channelsOf info g →
     ∃ t' d' (n : nat) dc s,
       UnregisterChannel w k g cid t d = Some (t', d', true)
       ∧ channelsOf info g !! n = Some dc ∧ ChannelID dc = cid
       ∧ s ≡ₚ delete n (channelsOf info g)
       ∧ twitchData t'
         = if decide (s = []) then
             if decide (delete g (DiscordChannels info) = ∅)
             then delete k (twitchData t)
             else <[k := withDiscordChannels (delete g (DiscordChannels info)) info]>
                    (twitchData t)
           else <[k := withDiscordChannels (<[g := s]> (DiscordChannels info)) info]>
                  (twitchData t))
  ∧ (∀ c w w' k subs subs' t d,
       twitchData t !! k = None →
       (validateAndRefreshAuthToken c t).2 = true →
       helix.Users (helix.GetUsers c [k]) ≠ [] →
       NoDup subs → subs' ≡ₚ subs →
       ∃ t1 d1 t2 d2,
         registerAll c w k subs t d = Some (t1, d1, replicate (length subs) None)
         ∧ unregisterAll w' k subs' t1 d1
           = Some (t2, d2, replicate (length subs') true)
         ∧ twitchData t2 = twitchData t
         ∧ dom (twitchData t2) = dom (twitchData t)).
Proof.
  split.
  - intros w k g cid t d info Hk Hin.
    destruct (UnregisterChannel_found w _ _ _ _ d _ Hk Hin)
      as (n & dc & s & Hn & Hdc & Hs & ->).
    eexists _, _, n, dc, s. split_and!; try done.
    simpl. apply cascade_twitchData.
  - intros c w w' k subs subs' t d Hk Hv Hu Hnd Hperm.
    destruct (registerAll_entry k (twitchData t) Hk c w subs ∅ t d)
      as (t1 & d1 & Hreg & Hentry1); [by left|done|set_solver|done|].
    destruct (unregisterAll_entry k (twitchData t) Hk w' subs' _ t1 d1 Hentry1)
      as (t2 & d2 & Hun & Hentry2).
    { by rewrite Hperm. }
    { intros p Hp. rewrite Hperm in Hp. apply elem_of_union. left.
      by apply elem_of_list_to_set. }
    assert (twitchData t2 = twitchData t) as Heq.
    { apply (entryOf_empty k (twitchData t)).
      replace (∅ : gset (string * string))
        with ((list_to_set subs ∪ ∅ : gset (string * string)) ∖ list_to_set subs');
        [done|].
      apply set_eq. intros p. rewrite Hperm.
      rewrite elem_of_difference, elem_of_union, elem_of_empty. tauto. }
    exists t1, d1, t2, d2. split_and!; [done|done|done|by rewrite Heq].
Qed.

(** * The theorems at work on the examples *)

Lemma RegisterChannel_twice_witness :
  ∃ t1 d1,
    RegisterChannel exampleClient true "alice" "g1" "c1" exampleEmptySession ∅
    = Some (t1, d1, None)
    ∧ RegisterChannel exampleTimeoutClient false "alice" "g1" "c1" t1 d1
      = Some (t1, d1, Some ErrTwitchUserRegistered)
    ∧ ∃ info, twitchData t1 !! "alice" = Some info
        ∧ length (filter (λ dc, ChannelID dc = "c1") (channelsOf info "g1")) = 1%nat.
Proof.
  eexists _, _. split.
  - vm_compute. reflexivity.
  - apply (RegisterChannel_twice exampleClient true exampleTimeoutClient false
             "alice" "g1" "c1" exampleEmptySession ∅).
    vm_compute. reflexivity.
Defined.

Lemma RegisterChannel_invalid_token_witness :
  twitchData exampleEmptySession !! "alice" = None
  ∧ (validateAndRefreshAuthToken exampleBrokenClient exampleEmptySession).2 = false
  ∧ ∃ t', RegisterChannel exampleBrokenClient true "alice" "g1" "c1"
            exampleEmptySession ∅
          = Some (t', ∅, Some ErrInvalidToken)
          ∧ twitchData t' = twitchData exampleEmptySession.
Proof.
  split; [reflexivity|]. split; [reflexivity|].
  apply (RegisterChannel_invalid_token exampleBrokenClient true "alice" "g1" "c1"
           exampleEmptySession ∅); reflexivity.
Defined.


Lemma UnregisterChannel_not_registered_witness :
  UnregisterChannel true "alice" "g1" "c2" exampleSession ∅
  = Some (exampleSession, ∅, false)
  ∧ UnregisterChannel true "bob" "g1" "c1" exampleSession ∅
    = Some (exampleSession, ∅, false).
Proof.
  split.
  - apply (UnregisterChannel_not_registered true "alice" "g1" "c2" exampleSession ∅).
    intros info Hinfo. simpl in Hinfo. rewrite lookup_singleton_eq in Hinfo.
    injection Hinfo as <-. unfold channelsOf. simpl. rewrite lookup_singleton_eq.
    simpl. intros Hin. apply list_elem_of_singleton in Hin. discriminate.
  - apply (UnregisterChannel_not_registered true "bob" "g1" "c1" exampleSession ∅).
    intros info Hinfo. simpl in Hinfo. rewrite lookup_singleton_ne in Hinfo; [|done].
    discriminate.
Defined.

Lemma Close_prunes_inactive_witness :
  isConnected (Close true {["g1" := false]} exampleSession ∅).1.1 = false
  ∧ (∀ k g dc,
       subscribed (twitchData (Close true {["g1" := false]} exampleSession ∅).1.1) k g dc
       ↔ subscribed (twitchData exampleSession) k g dc
         ∧ ({["g1" := false]} : gmap string bool) !! g ≠ Some false)
  ∧ ((Close true {["g1" := false]} exampleSession ∅).2 = None →
       twitchData (New None (name exampleSession)
                     (Close true {["g1" := false]} exampleSession ∅).1.2).1
       = twitchData (Close true {["g1" := false]} exampleSession ∅).1.1
       ∧ ∀ k g dc, ({["g1" := false]} : gmap string bool) !! g = Some false →
           ¬ subscribed
               (twitchData (New None (name exampleSession)
                              (Close true {["g1" := false]} exampleSession ∅).1.2).1)
               k g dc).
Proof.
  apply (Close_prunes_inactive true {["g1" := false]} exampleSession ∅).
  vm_compute. reflexivity.
Defined.

Lemma monitorCycle_skips_unready_guild_witness :
  guildStatus (exampleTick ∅) !! "g1" ≠ Some true
  ∧ (∀ m, m ∈ (monitorCycle fiveMinutes (exampleTick ∅) exampleEndedSession).2 →
          fromGuild m ≠ "g1")
  ∧ (∀ k info',
       twitchData (monitorCycle fiveMinutes (exampleTick ∅) exampleEndedSession).1 !! k
       = Some info' →
       ∃ info, twitchData exampleEndedSession !! k = Some info
               ∧ channelsOf info' "g1" = channelsOf info "g1").
Proof.
  assert (H : guildStatus (exampleTick ∅) !! "g1" ≠ Some true) by discriminate.
  split; [exact H|].
  exact (monitorCycle_skips_unready_guild fiveMinutes (exampleTick ∅)
           exampleEndedSession "g1" H).
Defined.



Lemma UnregisterChannel_cascade_witness :
  (∃ t' d' (n : nat) dc s,
     UnregisterChannel true "alice" "g1" "c1" exampleSession ∅ = Some (t', d', true)
     ∧ channelsOf exampleInfo "g1" !! n = Some dc ∧ ChannelID dc = "c1"
     ∧ s ≡ₚ delete n (channelsOf exampleInfo "g1")
     ∧ twitchData t'
       = if decide (s = []) then
           if decide (delete "g1" (DiscordChannels exampleInfo) = ∅)
           then delete "alice" (twitchData exampleSession)
           else <["alice" := withDiscordChannels
                               (delete "g1" (DiscordChannels exampleInfo)) exampleInfo]>
                  (twitchData exampleSession)
         else <["alice" := withDiscordChannels
                             (<["g1" := s]> (DiscordChannels exampleInfo)) exampleInfo]>
                (twitchData exampleSession))
  ∧ ∃ t1 d1 t2 d2,
      registerAll exampleClient true "alice"
        [("g1", "c1"); ("g1", "c2"); ("g2", "c1")] exampleEmptySession ∅
      = Some (t1, d1, replicate 3 None)
      ∧ unregisterAll false "alice"
          [("g1", "c2"); ("g1", "c1"); ("g2", "c1")] t1 d1
        = Some (t2, d2, replicate 3 true)
      ∧ twitchData t2 = twitchData exampleEmptySession
      ∧ dom (twitchData t2) = dom (twitchData exampleEmptySession).
Proof.
  destruct UnregisterChannel_cascade as [Hone Hall]. split.
  - apply (Hone true "alice" "g1" "c1" exampleSession ∅ exampleInfo).
    + reflexivity.
    + vm_compute. constructor.
  - apply (Hall exampleClient true false "alice"
             [("g1", "c1"); ("g1", "c2"); ("g2", "c1")]
             [("g1", "c2"); ("g1", "c1"); ("g2", "c1")] exampleEmptySession ∅).
    + reflexivity.
    + reflexivity.
    + discriminate.
    + apply (bool_decide_unpack _). vm_compute. exact I.
    + apply Permutation_swap.
Defined.

(** * Further properties of the registry *)

Lemma indexFrom_first (l : list discordChannel) (c : string) (i : Z) :
  c ∈ ChannelID <$> l →
  ∃ (n : nat) dc,
    l !! n = Some dc ∧ ChannelID dc = c ∧ indexFrom l c i = i + Z.of_nat n
    ∧ ∀ (m : nat) dc', (m < n)%nat → l !! m = Some dc' → ChannelID dc' ≠ c.
Proof.
  revert i. induction l as [|d l IH]; intros i Hc; simpl.
  - by apply elem_of_nil in Hc.
  - destruct (decide (ChannelID d = c)) as [Heq|Hne].
    + rewrite bool_decide_eq_true_2 by done. exists 0%nat, d.
      split_and!; [done|done|lia|]. intros m dc' Hm. lia.
    + rewrite bool_decide_eq_false_2 by done.
      rewrite fmap_cons in Hc. apply elem_of_cons in Hc as [Hc|Hc]; [congruence|].
      destruct (IH (i + 1) Hc) as (n & d' & Hn & Hd' & Hidx & Hfirst).
      exists (S n), d'. split_and!; [done|done|lia|].
      intros [|m] dc' Hm Hdc'; simpl in Hdc'.
      * by injection Hdc' as <-.
      * apply (Hfirst m); [lia|done].
Qed.

(** X1: [getChannelIdx] answers [-1] exactly when the twitch channel has no
    entry or the guild's list does not name the discord channel; otherwise
    it answers a position inside the guild's list, the first one that names
    the discord channel. *)
Theorem getChannelIdx_first t k g c :
  (getChannelIdx t k g c = -1
   ∧ ∀ info, twitchData t !! k = Some info → c ∉ ChannelID <$> channelsOf info g)
  ∨ ∃ info (n : nat) dc,
      twitchData t !! k = Some info
      ∧ getChannelIdx t k g c = Z.of_nat n
      ∧ channelsOf info g !! n = Some dc
      ∧ ChannelID dc = c
      ∧ ∀ (m : nat) dc', (m < n)%nat → channelsOf info g !! m = Some dc' →
          ChannelID dc' ≠ c.
Proof.
  unfold getChannelIdx. destruct (twitchData t !! k) as [info|] eqn:Hk.
  - destruct (decide (c ∈ ChannelID <$> channelsOf info g)) as [Hin|Hout].
    + right. destruct (indexFrom_first _ _ 0 Hin) as (n & dc & Hn & Hdc & Hidx & Hfirst).
      exists info, n, dc. by rewrite Hidx.
    + left. split; [by apply indexFrom_absent|]. by intros ? [= <-].
  - left. split; [done|]. by intros.
Qed.

Lemma remove_out_of_range (s : list discordChannel) (i : Z) :
  i < 0 ∨ Z.of_nat (length s) ≤ i → remove s i = None.
Proof.
  intros Hi. unfold remove. destruct (Z.ltb_spec i 0) as [|Hge]; [done|].
  destruct Hi as [|Hi]; [lia|].
  rewrite (proj2 (lookup_ge_None s (Z.to_nat i))); [done|lia].
Qed.

(** X2: [remove] panics exactly on an index outside the slice.  Inside, it
    returns a slice one shorter that holds the other elements: every
    position but [i] keeps its element, and position [i] gets the element
    that was last. *)
Theorem remove_swaps_with_last (s : list discordChannel) (i : Z) :
  (remove s i = None ↔ i < 0 ∨ Z.of_nat (length s) ≤ i)
  ∧ (0 ≤ i < Z.of_nat (length s) →
     ∃ s', remove s i = Some s'
       ∧ length s' = (length s - 1)%nat
       ∧ s' ≡ₚ delete (Z.to_nat i) s
       ∧ (∀ j, (j < length s - 1)%nat → j ≠ Z.to_nat i → s' !! j = s !! j)
       ∧ ((Z.to_nat i < length s - 1)%nat →
            s' !! Z.to_nat i = s !! (length s - 1)%nat)).
Proof.
  assert (Hin : 0 ≤ i < Z.of_nat (length s) →
     ∃ s', remove s i = Some s'
       ∧ length s' = (length s - 1)%nat
       ∧ s' ≡ₚ delete (Z.to_nat i) s
       ∧ (∀ j, (j < length s - 1)%nat → j ≠ Z.to_nat i → s' !! j = s !! j)
       ∧ ((Z.to_nat i < length s - 1)%nat →
            s' !! Z.to_nat i = s !! (length s - 1)%nat)).
  { intros Hi.
    destruct (lookup_lt_is_Some_2 s (Z.to_nat i)) as [x Hx]; [lia|].
    destruct (remove_Some s (Z.to_nat i) x Hx) as (s' & Hrem & Hperm).
    rewrite Z2Nat.id in Hrem by lia. exists s'. split; [done|].
    assert (Hlen : length s' = (length s - 1)%nat).
    { rewrite Hperm, length_delete by by eexists. lia. }
    split; [done|]. split; [done|].
    unfold remove in Hrem. destruct (Z.ltb_spec i 0); [lia|].
    rewrite Hx in Hrem. simpl in Hrem.
    destruct (lookup_lt_is_Some_2 s (length s - 1)%nat) as [y Hy]; [lia|].
    rewrite Hy in Hrem. simpl in Hrem. injection Hrem as <-. split.
    - intros j Hj Hne. rewrite lookup_take_lt by done.
      rewrite list_lookup_insert_ne by done.
      rewrite list_lookup_insert_ne by lia. done.
    - intros Hlt. rewrite lookup_take_lt by done.
      rewrite list_lookup_insert_eq; [by rewrite Hy|].
      rewrite length_insert. lia. }
  split; [|done]. split.
  - intros Hnone. destruct (Z.lt_ge_cases i 0) as [|Hge]; [by left|]. right.
    destruct (Z.le_gt_cases (Z.of_nat (length s)) i) as [|Hlt]; [done|].
    destruct Hin as (s' & Hs' & _); [lia|]. congruence.
  - apply remove_out_of_range.
Qed.

Lemma remove_swaps_with_last_witness :
  remove [exampleChannel; exampleNotified;
          {| ChannelID := "c3"; LiveNotificationSent := false |}] 0
  = Some [{| ChannelID := "c3"; LiveNotificationSent := false |}; exampleNotified]
  ∧ remove [exampleChannel] 1 = None.
Proof.
  split.
  - reflexivity.
  - apply (proj1 (remove_swaps_with_last [exampleChannel] 1)). right. simpl. lia.
Defined.

Lemma ensureTwitchChannel_cases c k t :
  ∃ t1 r, ensureTwitchChannel c k t = (t1, r)
    ∧ name t1 = name t
    ∧ ((∃ e, r = Some e ∧ (e = ErrInvalidToken ∨ e = ErrTwitchUserDoesNotExist)
             ∧ twitchData t !! k = None ∧ twitchData t1 = twitchData t)
       ∨ (r = None ∧ t1 = t ∧ is_Some (twitchData t !! k))
       ∨ (r = None ∧ twitchData t !! k = None
          ∧ (validateAndRefreshAuthToken c t).2 = true
          ∧ ∃ u us, helix.Users (helix.GetUsers c [k]) = u :: us
              ∧ twitchData t1 = <[k := newTwitchChannel u]> (twitchData t))).
Proof.
  unfold ensureTwitchChannel. destruct (twitchData t !! k) as [info|] eqn:Hk.
  - exists t, None. split_and!; [done|done|]. right. left.
    split_and!; [done|done|by eexists].
  - pose proof (validateAndRefreshAuthToken_twitchData c t) as Htd.
    pose proof (validateAndRefreshAuthToken_name c t) as Hnm.
    destruct (validateAndRefreshAuthToken c t) as [t1 ok]. simpl in *.
    destruct ok.
    + destruct (helix.Users (helix.GetUsers c [k])) as [|u us] eqn:Hu.
      * eexists _, _. split_and!; [done|done|]. left. eexists. by split_and!; [|right|..].
      * eexists _, _. split_and!; [done|done|]. right. right.
        split_and!; [done|done|done|]. exists u, us. split; [done|].
        simpl. by rewrite Htd.
    + eexists _, _. split_and!; [done|done|]. left. eexists. by split_and!; [|left|..].
Qed.

Lemma RegisterChannel_cases c w k g cid t d :
  ∃ t' d' e,
    RegisterChannel c w k g cid t d = Some (t', d', e)
    ∧ name t' = name t
    ∧ ((∃ err, e = Some err
          ∧ (err = ErrInvalidToken ∨ err = ErrTwitchUserDoesNotExist
             ∨ err = ErrTwitchUserRegistered)
          ∧ twitchData t' = twitchData t ∧ d' = d)
       ∨ (e = None
          ∧ ∃ info,
              (twitchData t !! k = Some info
               ∨ twitchData t !! k = None
                 ∧ ∃ u us, helix.Users (helix.GetUsers c [k]) = u :: us
                           ∧ info = newTwitchChannel u)
              ∧ (cid ∉ ChannelID <$> channelsOf info g)
              ∧ twitchData t' = <[k := appendChannel g cid info]> (twitchData t)
              ∧ d' = (WriteGobToDisk w (name t) (twitchData t') d).1)).
Proof.
  destruct (ensureTwitchChannel_cases c k t) as (t1 & r & He & Hnm & Hcases).
  destruct Hcases as [(e & -> & Herr & Hk & Htd)|[(-> & -> & [info Hk])|
                      (-> & Hk & Hv & u & us & Hu & Htd)]].
  - exists t1, d, (Some e). split_and!; [unfold RegisterChannel; by rewrite He|done|].
    left. exists e. split_and!; [done| |done|done]. destruct Herr; auto.
  - destruct (decide (cid ∈ ChannelID <$> channelsOf info g)) as [Hin|Hout].
    + exists t, d, (Some ErrTwitchUserRegistered). split_and!; [|done|].
      * unfold RegisterChannel. rewrite He.
        destruct (getChannelIdx_present _ _ _ _ _ Hk Hin) as (n & ? & _ & _ & ->).
        by assert ((Z.of_nat n <? 0) = false) as -> by (apply Z.ltb_ge; lia).
      * left. eexists. split_and!; [done| |done|done]. auto.
    + eexists _, _, None. split_and!.
      * by apply (RegisterChannel_new_subscription _ _ _ _ _ _ _ _ info He Hk).
      * done.
      * right. split; [done|]. exists info. split_and!; [by left|done|done|done].
  - assert (Hk1 : twitchData t1 !! k = Some (newTwitchChannel u)).
    { by rewrite Htd, lookup_insert_eq. }
    assert (Hout : cid ∉ ChannelID <$> channelsOf (newTwitchChannel u) g).
    { unfold channelsOf. simpl. rewrite lookup_empty. simpl. by intros ?%elem_of_nil. }
    eexists _, _, None. split_and!.
    + by apply (RegisterChannel_new_subscription _ _ _ _ _ _ _ _ _ He Hk1).
    + done.
    + right. split; [done|]. exists (newTwitchChannel u). split_and!.
      * right. split; [done|]. by exists u, us.
      * done.
      * simpl. by rewrite Htd, insert_insert_eq.
      * simpl. by rewrite Hnm, Htd, insert_insert_eq.
Qed.


(** ** The registry stays well formed *)

Lemma appendChannel_lists info g cid :
  (∀ g' l, DiscordChannels info !! g' = Some l → l ≠ [] ∧ NoDup (ChannelID <$> l)) →
  cid ∉ ChannelID <$> channelsOf info g →
  ∀ g' l, DiscordChannels (appendChannel g cid info) !! g' = Some l →
    l ≠ [] ∧ NoDup (ChannelID <$> l).
Proof.
  intros Hwf Hout g' l. unfold appendChannel. simpl.
  destruct (decide (g = g')) as [<-|Hne].
  - rewrite lookup_insert_eq. intros [= <-]. split; [by destruct (channelsOf info g)|].
    rewrite fmap_app. apply NoDup_app. split_and!.
    + unfold channelsOf. destruct (DiscordChannels info !! g) as [l|] eqn:Hl; simpl.
      * by apply (Hwf g).
      * constructor.
    + by intros x Hx [->|[]%elem_of_nil]%elem_of_cons.
    + apply NoDup_singleton.
  - rewrite lookup_insert_ne by done. apply Hwf.
Qed.

Lemma exampleSession_wellFormed : wellFormed (twitchData exampleSession).
Proof.
  intros k info Hk. simpl in Hk. apply lookup_singleton_Some in Hk as [<- <-].
  simpl. split; [apply insert_non_empty|].
  intros g l [<- <-]%lookup_singleton_Some. split; [done|]. apply NoDup_singleton.
Qed.

(** X4: whatever [RegisterChannel] returns, a well formed registry stays well
    formed: no entry without a guild, no guild without a discord channel,
    no discord channel twice in a guild's list. *)
Theorem RegisterChannel_wellFormed c w k g cid t d t' d' e :
  wellFormed (twitchData t) →
  RegisterChannel c w k g cid t d = Some (t', d', e) →
  wellFormed (twitchData t').
Proof.
  intros Hwf Hreg.
  destruct (RegisterChannel_cases c w k g cid t d)
    as (t1 & d1 & e1 & Hreg1 & _ & Hcases).
  rewrite Hreg in Hreg1. injection Hreg1 as <- <- <-.
  destruct Hcases as [(err & _ & _ & -> & _)|(_ & info & Hinfo & Hout & -> & _)]; [done|].
  assert (Hlists : ∀ g' l, DiscordChannels info !! g' = Some l →
                     l ≠ [] ∧ NoDup (ChannelID <$> l)).
  { destruct Hinfo as [Hk|(_ & u & us & _ & ->)].
    - by apply (Hwf k).
    - intros g' l. simpl. by rewrite lookup_empty. }
  intros k' info'. destruct (decide (k = k')) as [<-|Hne].
  - rewrite lookup_insert_eq. intros [= <-]. split.
    + unfold appendChannel. simpl. apply insert_non_empty.
    + by apply appendChannel_lists.
  - rewrite lookup_insert_ne by done. apply Hwf.
Qed.

Lemma RegisterChannel_wellFormed_witness :
  ∃ t' d',
    RegisterChannel exampleClient true "alice" "g1" "c2" exampleSession ∅
    = Some (t', d', None)
    ∧ wellFormed (twitchData t').
Proof.
  eexists _, _. split.
  - vm_compute. reflexivity.
  - eapply (RegisterChannel_wellFormed exampleClient true "alice" "g1" "c2"
              exampleSession ∅).
    + apply exampleSession_wellFormed.
    + vm_compute. reflexivity.
Defined.

(** X5: whatever [UnregisterChannel] returns, a well formed registry stays well
    formed: the guild whose list became empty and the entry whose last guild
    went are deleted with the subscription. *)
Theorem UnregisterChannel_wellFormed w k g cid t d t' d' b :
  wellFormed (twitchData t) →
  UnregisterChannel w k g cid t d = Some (t', d', b) →
  wellFormed (twitchData t').
Proof.
  intros Hwf Hun.
  destruct (Z.le_gt_cases 0 (getChannelIdx t k g cid)) as [Hge|Hlt].
  - destruct (getChannelIdx_found _ _ _ _ Hge) as (info & Hk & Hin).
    destruct (UnregisterChannel_found w _ _ _ _ d _ Hk Hin)
      as (n & dc & s & Hn & Hdc & Hs & Heq).
    rewrite Hun in Heq. injection Heq as -> _ _. simpl.
    rewrite cascade_twitchData.
    destruct (Hwf _ _ Hk) as [_ Hlists].
    destruct (channelsOf_Some _ _ _ Hin) as (l & Hl & Hch). rewrite Hch in *.
    assert (Hnd : NoDup (ChannelID <$> s)).
    { rewrite Hs, list_fmap_delete.
      eapply sublist_NoDup; [by apply (Hlists g)|apply sublist_delete]. }
    intros k' info'. destruct (decide (s = [])) as [->|Hsne].
    + destruct (decide (delete g (DiscordChannels info) = ∅)) as [He|He].
      * intros Hk'. apply lookup_delete_Some in Hk' as [_ Hk']. exact (Hwf _ _ Hk').
      * destruct (decide (k = k')) as [<-|Hne].
        -- rewrite lookup_insert_eq. intros [= <-]. simpl. split; [done|].
           intros g' l' [_ Hg']%lookup_delete_Some. exact (Hlists _ _ Hg').
        -- rewrite lookup_insert_ne by done. apply Hwf.
    + destruct (decide (k = k')) as [<-|Hne].
      * rewrite lookup_insert_eq. intros [= <-]. simpl.
        split; [apply insert_non_empty|]. intros g' l'.
        destruct (decide (g = g')) as [<-|Hneg].
        -- rewrite lookup_insert_eq. by intros [= <-].
        -- rewrite lookup_insert_ne by done. apply Hlists.
      * rewrite lookup_insert_ne by done. apply Hwf.
  - unfold UnregisterChannel in Hun.
    assert ((0 <=? getChannelIdx t k g cid) = false) as Hf by (apply Z.leb_gt; lia).
    rewrite Hf in Hun. by injection Hun as <- _ _.
Qed.

Lemma UnregisterChannel_wellFormed_witness :
  ∃ t' d',
    UnregisterChannel true "alice" "g1" "c1" exampleSession ∅ = Some (t', d', true)
    ∧ wellFormed (twitchData t').
Proof.
  eexists _, _. split.
  - vm_compute. reflexivity.
  - eapply (UnregisterChannel_wellFormed true "alice" "g1" "c1" exampleSession ∅).
    + apply exampleSession_wellFormed.
    + vm_compute. reflexivity.
Defined.

(** ** Sessions, snapshots and restarts *)

(** X6: [New] reads the snapshot only when the client could be made.  A missing
    snapshot is no error and gives an empty registry; an existing one
    becomes the registry.  The new session is not connected and carries the
    name it was given. *)
Theorem New_loads_snapshot clientErr nm (d : Disk) :
  name (New clientErr nm d).1 = nm
  ∧ isConnected (New clientErr nm d).1 = false
  ∧ match clientErr with
    | Some e => (New clientErr nm d).2 = Some e ∧ twitchData (New clientErr nm d).1 = ∅
    | None =>
        (New clientErr nm d).2 = None
        ∧ twitchData (New clientErr nm d).1 = default ∅ (d !! nm)
    end.
Proof.
  unfold New, readGobFromDisk. destruct clientErr as [e|]; [done|].
  by destruct (d !! nm).
Qed.

(** X7: a registration or a removal that is followed by a successful write
    survives a restart: a new session of the same name starts from the
    registry the operation left.  When the write fails the operation still
    reports success, and the disk is what it was. *)
Theorem registry_survives_restart c k g cid t (d : Disk) :
  (∀ t' d', RegisterChannel c true k g cid t d = Some (t', d', None) →
     twitchData (New None (name t') d').1 = twitchData t'
     ∧ (New None (name t') d').2 = None)
  ∧ (∀ t' d', UnregisterChannel true k g cid t d = Some (t', d', true) →
     twitchData (New None (name t') d').1 = twitchData t'
     ∧ (New None (name t') d').2 = None)
  ∧ (∀ t' d', RegisterChannel c true k g cid t d = Some (t', d', None) →
     ∃ d'', RegisterChannel c false k g cid t d = Some (t', d'', None) ∧ d'' = d)
  ∧ (∀ t' d', UnregisterChannel true k g cid t d = Some (t', d', true) →
     ∃ d'', UnregisterChannel false k g cid t d = Some (t', d'', true) ∧ d'' = d).
Proof.
  assert (Hload : ∀ nm td, twitchData (New None nm (<[nm := td]> d)).1 = td
                           ∧ (New None nm (<[nm := td]> d)).2 = None).
  { intros nm td. unfold New, readGobFromDisk. by rewrite lookup_insert_eq. }
  split_and!.
  - intros t' d' Hreg.
    destruct (RegisterChannel_cases c true k g cid t d)
      as (t1 & d1 & e1 & Hreg1 & Hnm & Hcases).
    rewrite Hreg in Hreg1. injection Hreg1 as <- <- <-.
    destruct Hcases as [(err & [=] & _)|(_ & info & _ & _ & _ & ->)].
    rewrite Hnm. simpl. apply Hload.
  - intros t' d' Hun.
    destruct (Z.le_gt_cases 0 (getChannelIdx t k g cid)) as [Hge|Hlt].
    + destruct (getChannelIdx_found _ _ _ _ Hge) as (info & Hk & Hin).
      destruct (UnregisterChannel_found true _ _ _ _ d _ Hk Hin)
        as (n & dc & s & _ & _ & _ & Heq).
      rewrite Hun in Heq. injection Heq as -> ->. simpl. apply Hload.
    + unfold UnregisterChannel in Hun.
      assert ((0 <=? getChannelIdx t k g cid) = false) as Hf by (apply Z.leb_gt; lia).
      by rewrite Hf in Hun.
  - intros t' d' Hreg.
    destruct (RegisterChannel_cases c false k g cid t d)
      as (t1 & d1 & e1 & Hreg1 & _ & Hcases1).
    destruct (RegisterChannel_cases c true k g cid t d)
      as (t2 & d2 & e2 & Hreg2 & _ & Hcases2).
    rewrite Hreg in Hreg2. injection Hreg2 as <- <- <-.
    unfold RegisterChannel in Hreg, Hreg1 |- *.
    destruct (ensureTwitchChannel c k t) as [t0 [e|]]; [done|].
    destruct (getChannelIdx t0 k g cid <? 0); [|done].
    destruct (twitchData t0 !! k) as [info|]; [|done]. simpl in *.
    injection Hreg as <- _. by eexists.
  - intros t' d' Hun. unfold UnregisterChannel in Hun |- *.
    destruct (0 <=? getChannelIdx t k g cid); [|done].
    destruct (twitchData t !! k) as [info|]; [|done]. simpl in *.
    destruct (remove _ _) as [s|]; [|done]. simpl in *.
    injection Hun as <- _. by eexists.
Qed.

Lemma registry_survives_restart_witness :
  ∃ t' d',
    RegisterChannel exampleClient true "alice" "g1" "c1" exampleEmptySession ∅
    = Some (t', d', None)
    ∧ twitchData (New None (name t') d').1 = twitchData t'
    ∧ (New None (name t') d').2 = None.
Proof.
  eexists _, _. split.
  - vm_compute. reflexivity.
  - apply (proj1 (registry_survives_restart exampleClient "alice" "g1" "c1"
                    exampleEmptySession ∅)).
    vm_compute. reflexivity.
Defined.

(** ** Authentication and the life of the monitor *)

(** X8: [validateAndRefreshAuthToken] answers [true] in two cases only: the
    token is valid and the status is 200, and then the session is untouched;
    or the token is invalid and twitch hands out a new, non-empty token, and
    then the session holds that token and is connected.  When it answers
    [false] the session is untouched, unless the token was invalid and no
    new one could be had: then the session is marked as not connected. *)
Theorem validateAndRefreshAuthToken_outcomes c ts :
  ((validateAndRefreshAuthToken c ts).2 = true →
     (helix.validateErr (helix.ValidateToken c (appAccessToken ts)) = None
      ∧ helix.isValid (helix.ValidateToken c (appAccessToken ts)) = true
      ∧ helix.StatusCode (helix.ValidateToken c (appAccessToken ts)) = 200
      ∧ (validateAndRefreshAuthToken c ts).1 = ts)
     ∨ (helix.validateErr (helix.ValidateToken c (appAccessToken ts)) = None
        ∧ helix.isValid (helix.ValidateToken c (appAccessToken ts)) = false
        ∧ helix.tokenErr (helix.RequestAppAccessToken c) = None
        ∧ helix.AccessToken (helix.RequestAppAccessToken c) ≠ ""
        ∧ isConnected (validateAndRefreshAuthToken c ts).1 = true
        ∧ appAccessToken (validateAndRefreshAuthToken c ts).1
          = helix.AccessToken (helix.RequestAppAccessToken c)))
  ∧ ((validateAndRefreshAuthToken c ts).2 = false →
       (validateAndRefreshAuthToken c ts).1 = ts
       ∧ (helix.validateErr (helix.ValidateToken c (appAccessToken ts)) = None →
          helix.isValid (helix.ValidateToken c (appAccessToken ts)) = true
          ∧ helix.StatusCode (helix.ValidateToken c (appAccessToken ts)) ≠ 200)
       ∨ refreshFails c (appAccessToken ts)
         ∧ (validateAndRefreshAuthToken c ts).1 = withConnected false ts).
Proof.
  unfold validateAndRefreshAuthToken, refreshFails, GetAuthToken. simpl.
  destruct (helix.validateErr _) as [e|] eqn:He.
  { split; [done|]. intros _. left. by split. }
  destruct (helix.isValid _) eqn:Hv; simpl.
  - destruct (Z.eqb_spec (helix.StatusCode (helix.ValidateToken c (appAccessToken ts))) 200)
      as [H200|H200]; simpl.
    + split; [|done]. intros _. by left.
    + split; [done|]. intros _. by left.
  - destruct (helix.tokenErr _) as [e|] eqn:Hte; simpl.
    + split; [done|]. intros _. right. split_and!; try done. by left.
    + case_bool_decide as Hempty; simpl.
      * split; [done|]. intros _. right. split_and!; try done. by right.
      * split; [|done]. intros _. right. by split_and!.
Qed.

Lemma validateAndRefreshAuthToken_outcomes_witness :
  isConnected (validateAndRefreshAuthToken exampleRenewClient
                 (withConnected false exampleSession)).1 = true
  ∧ appAccessToken (validateAndRefreshAuthToken exampleRenewClient
                      (withConnected false exampleSession)).1 = "renewed"
  ∧ (validateAndRefreshAuthToken exampleExpiredClient exampleSession).1
    = withConnected false exampleSession.
Proof.
  destruct (validateAndRefreshAuthToken_outcomes exampleRenewClient
              (withConnected false exampleSession)) as [Htrue _].
  destruct (validateAndRefreshAuthToken_outcomes exampleExpiredClient exampleSession)
    as [_ Hfalse].
  destruct (Htrue eq_refl) as [(_ & Hv & _)|(_ & _ & _ & _ & Hc & Htok)];
    [discriminate Hv|].
  destruct (Hfalse eq_refl) as [[_ Hn]|[_ Hd]].
  - destruct (Hn eq_refl) as [Hv _]. discriminate Hv.
  - split; [exact Hc|]. split; [exact Htok|exact Hd].
Defined.

Lemma validateAndRefreshAuthToken_refreshFails c ts :
  refreshFails c (appAccessToken ts) →
  validateAndRefreshAuthToken c ts = (withConnected false ts, false).
Proof.
  intros (He & Hv & Htok). unfold validateAndRefreshAuthToken, GetAuthToken.
  rewrite He, Hv. simpl.
  destruct (helix.tokenErr _) as [e|]; [done|].
  destruct Htok as [|Hempty]; [done|]. by rewrite bool_decide_eq_true_2.
Qed.

Lemma monitorChannels_disconnected D ws ts :
  isConnected ts = false → monitorChannels D ws ts = (ts, []).
Proof. intros H. destruct ws; simpl; [done|]. by rewrite H. Qed.

(** X9: the monitor ends with the token: when the token is invalid and cannot
    be refreshed, the turn sends nothing, leaves the registry alone, marks
    the session as not connected, and no later turn is taken.  An error of
    the validation call itself only skips the turn. *)
Theorem monitorChannels_ends_with_token D w ws ts :
  isConnected ts = true →
  (refreshFails (client w) (appAccessToken ts) →
     monitorChannels D (w :: ws) ts = (withConnected false ts, [[]]))
  ∧ (helix.validateErr (helix.ValidateToken (client w) (appAccessToken ts)) ≠ None →
     monitorChannels D (w :: ws) ts
     = ((monitorChannels D ws ts).1, [] :: (monitorChannels D ws ts).2)).
Proof.
  intros Hc. split.
  - intros Hf. simpl. rewrite Hc. unfold monitorCycle.
    rewrite (validateAndRefreshAuthToken_refreshFails _ _ Hf).
    by rewrite monitorChannels_disconnected.
  - intros He. simpl. rewrite Hc. unfold monitorCycle, validateAndRefreshAuthToken.
    destruct (helix.validateErr _); [|done].
    by destruct (monitorChannels D ws ts).
Qed.

Lemma monitorChannels_ends_with_token_witness :
  isConnected exampleSession = true
  ∧ refreshFails (client exampleExpiredTick) (appAccessToken exampleSession)
  ∧ monitorChannels fiveMinutes [exampleExpiredTick; exampleLiveTick] exampleSession
    = (withConnected false exampleSession, [[]]).
Proof.
  assert (Hf : refreshFails (client exampleExpiredTick) (appAccessToken exampleSession)).
  { split; [reflexivity|]. split; [reflexivity|]. left. discriminate. }
  split; [reflexivity|]. split; [exact Hf|].
  exact (proj1 (monitorChannels_ends_with_token fiveMinutes exampleExpiredTick
                  [exampleLiveTick] exampleSession eq_refl) Hf).
Defined.

(** X10: a registration that finds the token invalid and cannot refresh it does
    more than fail: it marks the session as not connected, and a monitor
    that runs on this session takes no further turn. *)
Theorem failed_registration_stops_monitor c w k g cid t d :
  twitchData t !! k = None →
  refreshFails c (appAccessToken t) →
  RegisterChannel c w k g cid t d
  = Some (withConnected false t, d, Some ErrInvalidToken)
  ∧ ∀ D ws, monitorChannels D ws (withConnected false t) = (withConnected false t, []).
Proof.
  intros Hk Hf. split.
  - unfold RegisterChannel, ensureTwitchChannel.
    by rewrite Hk, (validateAndRefreshAuthToken_refreshFails _ _ Hf).
  - intros D ws. by apply monitorChannels_disconnected.
Qed.

Lemma failed_registration_stops_monitor_witness :
  twitchData exampleEmptySession !! "alice" = None
  ∧ refreshFails exampleExpiredClient (appAccessToken exampleEmptySession)
  ∧ RegisterChannel exampleExpiredClient true "alice" "g1" "c1" exampleEmptySession ∅
    = Some (withConnected false exampleEmptySession, ∅, Some ErrInvalidToken)
  ∧ ∀ D ws, monitorChannels D ws (withConnected false exampleEmptySession)
            = (withConnected false exampleEmptySession, []).
Proof.
  assert (Hf : refreshFails exampleExpiredClient (appAccessToken exampleEmptySession)).
  { split; [reflexivity|]. split; [reflexivity|]. left. discriminate. }
  split; [reflexivity|]. split; [exact Hf|].
  exact (failed_registration_stops_monitor exampleExpiredClient true "alice" "g1" "c1"
           exampleEmptySession ∅ eq_refl Hf).
Defined.

(** ** What the monitor leaves alone *)

Lemma sameSubscribers_refl info : sameSubscribers info info.
Proof. by split_and!. Qed.

Lemma sameSubscribers_trans info1 info2 info3 :
  sameSubscribers info1 info2 → sameSubscribers info2 info3 →
  sameSubscribers info1 info3.
Proof.
  intros (Hd1 & Hl1 & Hg1) (Hd2 & Hl2 & Hg2). split_and!; [congruence|congruence|].
  intros g. by rewrite Hg2, Hg1.
Qed.

Lemma populate_sameSubscribers now streams k info :
  sameSubscribers info (populate now streams k info).
Proof. unfold populate. destruct (findLive k streams); by split_and!. Qed.

Lemma flags_keep_ChannelID (f : discordChannel → discordChannel)
    (l : list discordChannel) :
  (∀ dc, ChannelID (f dc) = ChannelID dc) → ChannelID <$> (f <$> l) = ChannelID <$> l.
Proof.
  intros Hf. rewrite <- list_fmap_compose. apply list_fmap_ext. intros ? dc _. apply Hf.
Qed.

Lemma evaluate_sameSubscribers D gs now k info :
  sameSubscribers info (evaluate D gs now k info).1.
Proof.
  unfold evaluate. destruct (confirmedLive D now info).
  - destruct (forGuilds _ _ _) as [dcs out] eqn:Hf. simpl.
    split_and!; [done|done|]. intros g. simpl.
    replace dcs with (forGuilds (λ guild, notifyLive k guild info) gs
                        (DiscordChannels info)).1 by by rewrite Hf.
    rewrite forGuilds_flags. destruct (DiscordChannels info !! g) as [l|]; [|done].
    simpl. f_equal. destruct (guildReady gs g); [|done].
    rewrite notifyLive_flags. apply flags_keep_ChannelID.
    intros dc. by destruct (LiveNotificationSent dc).
  - destruct (confirmedOffline D now info); [|apply sameSubscribers_refl].
    destruct (forGuilds _ _ _) as [dcs out] eqn:Hf. simpl.
    split_and!; [done|done|]. intros g. simpl.
    replace dcs with (forGuilds (λ guild, notifyOffline k guild info) gs
                        (DiscordChannels info)).1 by by rewrite Hf.
    rewrite forGuilds_flags. destruct (DiscordChannels info !! g) as [l|]; [|done].
    simpl. f_equal. destruct (guildReady gs g); [|done].
    rewrite notifyOffline_flags. apply flags_keep_ChannelID.
    intros dc. by destruct (LiveNotificationSent dc).
Qed.

Lemma monitorCycle_sameSubscribers D w ts k :
  match twitchData ts !! k with
  | None => twitchData (monitorCycle D w ts).1 !! k = None
  | Some info =>
      ∃ info', twitchData (monitorCycle D w ts).1 !! k = Some info'
               ∧ sameSubscribers info info'
  end.
Proof.
  rewrite monitorCycle_lookup, observe_lookup.
  destruct (twitchData ts !! k) as [info|]; simpl.
  - destruct (validateAndRefreshAuthToken (client w) ts).2; simpl.
    + eexists. split; [done|].
      eapply sameSubscribers_trans; [apply populate_sameSubscribers|].
      apply evaluate_sameSubscribers.
    + eexists. split; [done|]. apply sameSubscribers_refl.
  - by destruct (validateAndRefreshAuthToken (client w) ts).2.
Qed.

Lemma monitorCycle_name D w ts : name (monitorCycle D w ts).1 = name ts.
Proof.
  unfold monitorCycle.
  pose proof (validateAndRefreshAuthToken_name (client w) ts) as Hnm.
  destruct (validateAndRefreshAuthToken (client w) ts) as [ts1 ok]. simpl in Hnm.
  destruct ok; [|done]. by destruct (evaluateAll D w _).
Qed.

Lemma monitorChannels_name D ws ts : name (monitorChannels D ws ts).1 = name ts.
Proof.
  revert ts. induction ws as [|w ws IH]; intros ts; simpl; [done|].
  destruct (isConnected ts); [|done].
  pose proof (monitorCycle_name D w ts) as Hw.
  destruct (monitorCycle D w ts) as [ts1 out]. simpl in Hw.
  specialize (IH ts1).
  destruct (monitorChannels D ws ts1) as [ts2 outs]. simpl in *. congruence.
Qed.

Lemma sameSubscribers_lists info info' :
  sameSubscribers info info' →
  DiscordChannels info ≠ ∅
  ∧ (∀ g l, DiscordChannels info !! g = Some l → l ≠ [] ∧ NoDup (ChannelID <$> l)) →
  DiscordChannels info' ≠ ∅
  ∧ (∀ g l, DiscordChannels info' !! g = Some l → l ≠ [] ∧ NoDup (ChannelID <$> l)).
Proof.
  intros (_ & _ & Hg) [Hne Hlists]. split.
  - apply map_choose in Hne as (g & l & Hl). intros He.
    specialize (Hg g). rewrite Hl, He, lookup_empty in Hg. done.
  - intros g l' Hl'. specialize (Hg g). rewrite Hl' in Hg.
    destruct (DiscordChannels info !! g) as [l|] eqn:Hl; [|done].
    simpl in Hg. injection Hg as Hids.
    destruct (Hlists g l Hl) as [Hnil Hnd]. rewrite Hids. split; [|done].
    intros ->. destruct l; [done|discriminate Hids].
Qed.

(** X11: however many turns the monitor takes, it adds and removes nothing: the
    registry has the same twitch channels, each with the display name,
    the logo and, guild by guild, the discord channels it had, in the same
    order; only flags, stream data and timestamps move.  So a well formed
    registry stays well formed, and the session keeps its name. *)
Theorem monitorChannels_keeps_subscribers D ws ts :
  name (monitorChannels D ws ts).1 = name ts
  ∧ (∀ k, twitchData ts !! k = None →
          twitchData (monitorChannels D ws ts).1 !! k = None)
  ∧ (∀ k info, twitchData ts !! k = Some info →
       ∃ info', twitchData (monitorChannels D ws ts).1 !! k = Some info'
                ∧ sameSubscribers info info')
  ∧ (wellFormed (twitchData ts) →
     wellFormed (twitchData (monitorChannels D ws ts).1)).
Proof.
  assert (Hrel : ∀ k,
    match twitchData ts !! k with
    | None => twitchData (monitorChannels D ws ts).1 !! k = None
    | Some info =>
        ∃ info', twitchData (monitorChannels D ws ts).1 !! k = Some info'
                 ∧ sameSubscribers info info'
    end).
  { revert ts. induction ws as [|w ws IH]; intros ts k; simpl.
    - destruct (twitchData ts !! k) as [info|]; [|done].
      exists info. split; [done|]. apply sameSubscribers_refl.
    - destruct (isConnected ts).
      + pose proof (monitorCycle_sameSubscribers D w ts k) as Hw.
        destruct (monitorCycle D w ts) as [ts1 out]. simpl in Hw.
        specialize (IH ts1 k).
        destruct (monitorChannels D ws ts1) as [ts2 outs]. simpl in *.
        destruct (twitchData ts !! k) as [info|].
        * destruct Hw as (info1 & Hk1 & Hs1). rewrite Hk1 in IH.
          destruct IH as (info2 & Hk2 & Hs2). exists info2. split; [done|].
          by eapply sameSubscribers_trans.
        * by rewrite Hw in IH.
      + simpl. destruct (twitchData ts !! k) as [info|]; [|done].
        exists info. split; [done|]. apply sameSubscribers_refl. }
  split_and!.
  - apply monitorChannels_name.
  - intros k Hk. specialize (Hrel k). by rewrite Hk in Hrel.
  - intros k info Hk. specialize (Hrel k). by rewrite Hk in Hrel.
  - intros Hwf k info' Hk'. specialize (Hrel k).
    destruct (twitchData ts !! k) as [info|] eqn:Hk; [|congruence].
    destruct Hrel as (info1 & Hk1 & Hsame).
    assert (info1 = info') as -> by congruence.
    apply (sameSubscribers_lists info info' Hsame). exact (Hwf _ _ Hk).
Qed.

Lemma monitorChannels_keeps_subscribers_witness :
  wellFormed (twitchData exampleSession)
  ∧ wellFormed (twitchData (monitorChannels fiveMinutes
                              [exampleLiveTick; exampleLiveTick] exampleSession).1).
Proof.
  split; [apply exampleSession_wellFormed|].
  apply (monitorChannels_keeps_subscribers fiveMinutes
           [exampleLiveTick; exampleLiveTick] exampleSession).
  apply exampleSession_wellFormed.
Defined.

(** ** A stream that is found live *)

Lemma findLive_first k streams s :
  findLive k streams = Some s →
  ∃ l1 l2, streams = l1 ++ s :: l2
    ∧ helix.UserLogin s = k ∧ helix.Type_ s = "live"
    ∧ ∀ s', s' ∈ l1 → ¬ (helix.UserLogin s' = k ∧ helix.Type_ s' = "live").
Proof.
  induction streams as [|x streams IH]; [done|]. simpl.
  destruct (decide (helix.UserLogin x = k)) as [Hl|Hl];
    destruct (decide (helix.Type_ x = "live")) as [Ht|Ht];
    rewrite ?(bool_decide_eq_true_2 _ Hl), ?(bool_decide_eq_false_2 _ Hl),
      ?(bool_decide_eq_true_2 _ Ht), ?(bool_decide_eq_false_2 _ Ht); simpl.
  - intros [= <-]. exists [], streams. split_and!; [done|done|done|].
    by intros s' ?%elem_of_nil.
  - intros (l1 & l2 & -> & ? & ? & Hfirst)%IH. exists (x :: l1), l2.
    split_and!; [done|done|done|].
    intros s' [->|Hs']%elem_of_cons; [by intros [_ ?]|by apply Hfirst].
  - intros (l1 & l2 & -> & ? & ? & Hfirst)%IH. exists (x :: l1), l2.
    split_and!; [done|done|done|].
    intros s' [->|Hs']%elem_of_cons; [by intros [? _]|by apply Hfirst].
  - intros (l1 & l2 & -> & ? & ? & Hfirst)%IH. exists (x :: l1), l2.
    split_and!; [done|done|done|].
    intros s' [->|Hs']%elem_of_cons; [by intros [? _]|by apply Hfirst].
Qed.

Lemma findLive_None k streams :
  findLive k streams = None ↔
  ∀ s, s ∈ streams → ¬ (helix.UserLogin s = k ∧ helix.Type_ s = "live").
Proof.
  induction streams as [|x streams IH]; simpl.
  - split; [|done]. by intros _ s ?%elem_of_nil.
  - destruct (decide (helix.UserLogin x = k ∧ helix.Type_ x = "live")) as [[Hl Ht]|Hn].
    + rewrite !bool_decide_eq_true_2 by done. simpl. split; [done|].
      intros Hall. destruct (Hall x); [apply elem_of_cons; by left|done].
    + assert (bool_decide (helix.UserLogin x = k) && bool_decide (helix.Type_ x = "live")
              = false) as ->.
      { apply andb_false_iff.
        destruct (decide (helix.UserLogin x = k)); [right|left];
          apply bool_decide_eq_false_2; [by intros ?; apply Hn|done]. }
      rewrite IH. split.
      * intros Hall s [->|Hs]%elem_of_cons; [done|by apply Hall].
      * intros Hall s Hs. apply Hall, elem_of_cons. by right.
Qed.

Lemma evaluate_stream_fields D gs now k info :
  StreamTitle (evaluate D gs now k info).1 = StreamTitle info
  ∧ GameID (evaluate D gs now k info).1 = GameID info
  ∧ ThumbnailURL (evaluate D gs now k info).1 = ThumbnailURL info.
Proof.
  unfold evaluate. destruct (confirmedLive D now info).
  - by destruct (forGuilds _ _ _).
  - destruct (confirmedOffline D now info); [|done]. by destruct (forGuilds _ _ _).
Qed.

(** X12: a turn of the monitor that finds the twitch channel among the streams
    takes the first stream of the answer whose login is the channel's key
    and whose type is "live": the entry gets that stream's title, game,
    thumbnail and start time, its end time is cleared, and its name, logo
    and subscribers are what they were. *)
Theorem monitorCycle_live_stream D w ts k info s :
  (validateAndRefreshAuthToken (client w) ts).2 = true →
  twitchData ts !! k = Some info →
  findLive k (helix.Streams
                (helix.GetStreams (client w) (map_to_list (twitchData ts)).*1)) = Some s →
  (∃ l1 l2,
     helix.Streams (helix.GetStreams (client w) (map_to_list (twitchData ts)).*1)
     = l1 ++ s :: l2
     ∧ helix.UserLogin s = k ∧ helix.Type_ s = "live"
     ∧ ∀ s', s' ∈ l1 → ¬ (helix.UserLogin s' = k ∧ helix.Type_ s' = "live"))
  ∧ ∃ info',
      twitchData (monitorCycle D w ts).1 !! k = Some info'
      ∧ StreamTitle info' = helix.Title s
      ∧ GameID info' = helix.GameID s
      ∧ ThumbnailURL info' = helix.ThumbnailURL s
      ∧ StartTime info' = helix.StartedAt s
      ∧ EndTime info' = 0
      ∧ sameSubscribers info info'.
Proof.
  intros Hv Hk Hlive. split; [by apply findLive_first|].
  set (streams := helix.Streams _) in Hlive.
  set (info1 := populate (stampClock w k) streams k info).
  assert (Hobs : observe w (twitchData ts) !! k = Some info1).
  { by rewrite observe_lookup, Hk. }
  destruct (evaluate_times D (guildStatus w) (sinceClock w k) k info1) as [Hs He].
  destruct (evaluate_stream_fields D (guildStatus w) (sinceClock w k) k info1)
    as (Ht & Hg & Hth).
  eexists. split; [by rewrite monitorCycle_lookup, Hv, Hobs|].
  rewrite Ht, Hg, Hth, Hs, He. unfold info1, populate. rewrite Hlive. simpl.
  split_and!; try done.
  eapply sameSubscribers_trans; [|apply evaluate_sameSubscribers].
  by split_and!.
Qed.

Lemma monitorCycle_live_stream_witness :
  ∃ info',
    twitchData (monitorCycle fiveMinutes exampleLiveTick exampleSession).1 !! "alice"
    = Some info'
    ∧ StreamTitle info' = "Speedrun"
    ∧ GameID info' = "cat1"
    ∧ ThumbnailURL info' = "http://t/{width}x{height}.jpg"
    ∧ StartTime info' = 1400000000000
    ∧ EndTime info' = 0
    ∧ sameSubscribers exampleInfo info'.
Proof.
  apply (monitorCycle_live_stream fiveMinutes exampleLiveTick exampleSession "alice"
           exampleInfo exampleStream); reflexivity.
Defined.

(** ** One turn, one kind of message *)

Lemma guildMessages_kind D gs now k g info m :
  m ∈ guildMessages D gs now k g info → isLive (sent m) = confirmedLive D now info.
Proof.
  unfold guildMessages. destruct (guildReady gs g); [|by intros ?%elem_of_nil].
  destruct (confirmedLive D now info).
  - by intros (_ & ? & _)%notifyLive_origin.
  - destruct (confirmedOffline D now info); [|by intros ?%elem_of_nil].
    by intros (_ & ? & _)%notifyOffline_origin.
Qed.

(** X14: the messages that one turn of the monitor starts for a twitch channel
    are all of one kind: "now live" embeds when the channel is confirmed
    live, offline texts otherwise, never both. *)
Theorem monitorCycle_one_kind D w ts m1 m2 :
  m1 ∈ (monitorCycle D w ts).2 →
  m2 ∈ (monitorCycle D w ts).2 →
  fromTwitch m1 = fromTwitch m2 →
  isLive (sent m1) = isLive (sent m2).
Proof.
  intros (info1 & Hk1 & _ & Hm1)%monitorCycle_origin
         (info2 & Hk2 & _ & Hm2)%monitorCycle_origin Heq.
  rewrite Heq in Hk1, Hm1. assert (info1 = info2) as -> by congruence.
  apply guildMessages_kind in Hm1, Hm2. congruence.
Qed.

Lemma monitorCycle_one_kind_witness :
  isLive (sent (liveMessage "alice" "g1"
                  (populate 2000000000000 [exampleStream] "alice" examplePairInfo)
                  exampleChannel))
  = isLive (sent (liveMessage "alice" "g1"
                    (populate 2000000000000 [exampleStream] "alice" examplePairInfo)
                    exampleSecond)).
Proof.
  apply (monitorCycle_one_kind fiveMinutes exampleLiveTick examplePairSession).
  - vm_compute. constructor.
  - vm_compute. constructor. constructor.
  - reflexivity.
Defined.

(** ** Offline notifications: the mirror of the live ones *)








(** ** Evaluating twice *)

Lemma evaluate_confirmed D gs now k info :
  confirmedLive D now (evaluate D gs now k info).1 = confirmedLive D now info
  ∧ confirmedOffline D now (evaluate D gs now k info).1 = confirmedOffline D now info.
Proof.
  destruct (evaluate_times D gs now k info) as [Hs He].
  unfold confirmedLive, confirmedOffline. by rewrite Hs, He.
Qed.

(** X16: evaluating the debounce again on the registry that an evaluation left,
    with the same clock and the same guild status, starts no message: every
    subscription that was due a message has had its flag flipped. *)
Theorem evaluateAll_twice_is_silent D w (td : gmap string twitchChannelInfo) :
  (evaluateAll D w (evaluateAll D w td).1).2 = [].
Proof.
  apply elem_of_nil_inv. intros m (info' & Hk' & Hr & Hm)%evaluateAll_origin.
  rewrite evaluateAll_lookup in Hk'.
  destruct (td !! fromTwitch m) as [info|]; [|done]. simpl in Hk'.
  injection Hk' as <-.
  destruct (evaluate_confirmed D (guildStatus w) (sinceClock w (fromTwitch m))
              (fromTwitch m) info) as [Hcl Hco].
  unfold guildMessages in Hm. rewrite Hr, Hcl, Hco, evaluate_flags in Hm.
  unfold guildFlags in Hm. rewrite Hr in Hm.
  destruct (confirmedLive D _ info).
  - rewrite notifyLive_messages, notifyLive_flags in Hm.
    apply list_elem_of_fmap in Hm as (dc & _ & [Hs Hdc]%list_elem_of_filter).
    apply list_elem_of_fmap in Hdc as (x & -> & _).
    destruct (LiveNotificationSent x) eqn:Hx; simpl in Hs; congruence.
  - destruct (confirmedOffline D _ info); [|by apply elem_of_nil in Hm].
    rewrite notifyOffline_messages, notifyOffline_flags in Hm.
    apply list_elem_of_fmap in Hm as (dc & _ & [Hs Hdc]%list_elem_of_filter).
    apply list_elem_of_fmap in Hdc as (x & -> & _).
    destruct (LiveNotificationSent x) eqn:Hx; simpl in Hs; congruence.
Qed.

(** ** The threshold and the range of durations *)

Lemma Since_above D now t :
  time.minDuration ≤ D < time.maxDuration →
  (D <? time.Since now t) = true ↔ D < now - t.
Proof.
  intros [Hmin Hmax]. unfold time.Since, time.Sub. rewrite Z.ltb_lt.
  destruct (Z.ltb_spec time.maxDuration (now - t)); [lia|].
  destruct (Z.ltb_spec (now - t) time.minDuration); lia.
Qed.

(** X17: for a threshold that is a duration and not the largest one, the two
    debounce conditions compare the exact time elapsed, although
    [time.Since] saturates; with the largest duration as threshold no
    channel is ever confirmed live or offline. *)
Theorem confirmed_compares_exactly D now info :
  (time.minDuration ≤ D < time.maxDuration →
     (confirmedLive D now info = true ↔ StartTime info ≠ 0 ∧ D < now - StartTime info)
     ∧ (confirmedOffline D now info = true ↔ EndTime info ≠ 0 ∧ D < now - EndTime info))
  ∧ (time.maxDuration ≤ D →
     confirmedLive D now info = false ∧ confirmedOffline D now info = false).
Proof.
  split.
  - intros HD. unfold confirmedLive, confirmedOffline, time.IsZero.
    rewrite !andb_true_iff, !negb_true_iff, !bool_decide_eq_false.
    by rewrite !(Since_above D now _ HD).
  - intros HD.
    assert (Hle : ∀ t, (D <? time.Since now t) = false).
    { intros t. apply Z.ltb_ge. unfold time.Since, time.Sub.
      destruct (Z.ltb_spec time.maxDuration (now - t)); [lia|].
      destruct (Z.ltb_spec (now - t) time.minDuration); [|lia].
      unfold time.minDuration, time.maxDuration in *. lia. }
    unfold confirmedLive, confirmedOffline. rewrite !Hle.
    by rewrite !andb_false_r.
Qed.

Lemma confirmed_compares_exactly_witness :
  confirmedLive fiveMinutes 2000000000000 exampleLiveInfo = true
  ↔ StartTime exampleLiveInfo ≠ 0 ∧ fiveMinutes < 2000000000000 - StartTime exampleLiveInfo.
Proof.
  apply (proj1 (confirmed_compares_exactly fiveMinutes 2000000000000 exampleLiveInfo)).
  split; [discriminate|reflexivity].
Defined.

(** ** Guilds coming and going *)

(** X18: [GuildCreate] touches the status of its own guild only.  For a guild
    that is available it stores [true], so the monitor delivers there; for
    a guild that is reported unavailable it removes the status: the monitor
    starts no message for it, and [Close] keeps its subscriptions, whereas
    it drops those of a guild marked inactive. *)
Theorem GuildCreate_gates_guild D w ts (gs : gmap string bool) g t d wr :
  guildStatus w = GuildCreate true g gs →
  GuildCreate false g gs !! g = Some true
  ∧ (∀ u g', g' ≠ g → GuildCreate u g gs !! g' = gs !! g')
  ∧ (∀ m, m ∈ (monitorCycle D w ts).2 → fromGuild m ≠ g)
  ∧ (∀ k dc, subscribed (twitchData (Close wr (GuildCreate true g gs) t d).1.1) k g dc
             ↔ subscribed (twitchData t) k g dc)
  ∧ (∀ k dc, ¬ subscribed (twitchData (Close wr (SetGuildInactive g gs) t d).1.1) k g dc).
Proof.
  intros Hw. unfold GuildCreate, SetGuildActive, SetGuildUnavailable, SetGuildInactive in *.
  split_and!.
  - by rewrite lookup_insert_eq.
  - intros [] g' Hne; by rewrite ?lookup_delete_ne, ?lookup_insert_ne.
  - intros m (info & _ & Hr & _)%monitorCycle_origin Heq.
    by rewrite Hw, Heq, lookup_delete_eq in Hr.
  - intros k dc. rewrite Close_subscribed, lookup_delete_eq. split; [by intros [? _]|done].
  - intros k dc. rewrite Close_subscribed, lookup_insert_eq. by intros [_ ?].
Qed.

Lemma GuildCreate_gates_guild_witness :
  guildStatus (exampleTick (GuildCreate true "g1" {["g1" := true]}))
  = GuildCreate true "g1" {["g1" := true]}
  ∧ GuildCreate false "g1" {["g1" := true]} !! "g1" = Some true
  ∧ (∀ u g', g' ≠ "g1" →
       GuildCreate u "g1" {["g1" := true]} !! g'
       = ({["g1" := true]} : gmap string bool) !! g')
  ∧ (∀ m, m ∈ (monitorCycle fiveMinutes
                 (exampleTick (GuildCreate true "g1" {["g1" := true]}))
                 exampleEndedSession).2 →
          fromGuild m ≠ "g1")
  ∧ (∀ k dc,
       subscribed
         (twitchData (Close true (GuildCreate true "g1" {["g1" := true]})
                        exampleSession ∅).1.1) k "g1" dc
       ↔ subscribed (twitchData exampleSession) k "g1" dc)
  ∧ (∀ k dc,
       ¬ subscribed
           (twitchData (Close true (SetGuildInactive "g1" {["g1" := true]})
                          exampleSession ∅).1.1) k "g1" dc).
Proof.
  split; [reflexivity|].
  exact (GuildCreate_gates_guild fiveMinutes
           (exampleTick (GuildCreate true "g1" {["g1" := true]})) exampleEndedSession
           {["g1" := true]} "g1" exampleSession ∅ true eq_refl).
Defined.

(** ** The picture of a "now live" message *)

Lemma append_cons ch (a b : string) :
  String.append (String ch a) b = String ch (String.append a b).
Proof. reflexivity. Qed.

Lemma append_nil_l (q : string) : String.append "" q = q.
Proof. reflexivity. Qed.

Lemma prefix_append (old q : string) : String.prefix old (String.append old q) = true.
Proof.
  induction old as [|c old IH]; [by destruct q|].
  rewrite append_cons. simpl. destruct (Ascii.ascii_dec c c); [done|congruence].
Qed.

Lemma append_assoc (a b c : string) :
  String.append (String.append a b) c = String.append a (String.append b c).
Proof.
  induction a as [|ch a IH]; [done|]. rewrite !append_cons. by rewrite IH.
Qed.

Lemma hasChar_append c (a b : string) :
  hasChar c (String.append a b) = hasChar c a || hasChar c b.
Proof.
  induction a as [|ch a IH]; [done|]. rewrite append_cons. simpl.
  by rewrite IH, orb_assoc.
Qed.

Lemma replaceFrom_skip old new (x q : string) :
  replaceFrom old new (String.length x) (String.append x q) = replaceFrom old new 0 q.
Proof.
  induction x as [|ch x IH]; [by destruct q|]. rewrite append_cons. simpl. done.
Qed.

Lemma replaceFrom_no_first c old' new (s : string) :
  hasChar c s = false → replaceFrom (String c old') new 0 s = s.
Proof.
  induction s as [|ch s IH]; [done|]. simpl.
  intros [Hch Hs]%orb_false_elim. apply bool_decide_eq_false in Hch.
  destruct (Ascii.ascii_dec c ch) as [->|_]; [done|]. by rewrite IH.
Qed.

Lemma prefix_cons_ne c ch (o s : string) :
  c ≠ ch → String.prefix (String c o) (String ch s) = false.
Proof. intros Hne. simpl. by destruct (Ascii.ascii_dec c ch). Qed.

Lemma replaceFrom_cons_no_prefix old new ch (s : string) :
  String.prefix old (String ch s) = false →
  replaceFrom old new 0 (String ch s) = String ch (replaceFrom old new 0 s).
Proof. intros Hpre. cbn [replaceFrom]. by rewrite Hpre. Qed.

Lemma replaceFrom_at c old' new (p q : string) :
  hasChar c p = false →
  replaceFrom (String c old') new 0 (String.append p (String.append (String c old') q))
  = String.append p (String.append new (replaceFrom (String c old') new 0 q)).
Proof.
  induction p as [|ch p IH]; intros Hp.
  - rewrite !append_nil_l.
    pose proof (prefix_append (String c old') q) as Hpre.
    rewrite append_cons in Hpre |- *. simpl in Hpre |- *. rewrite Hpre. f_equal.
    rewrite Nat.sub_0_r. apply replaceFrom_skip.
  - simpl in Hp. apply orb_false_elim in Hp as [Hch Hp].
    apply bool_decide_eq_false in Hch. rewrite !(append_cons ch p). simpl.
    destruct (Ascii.ascii_dec c ch) as [->|_]; [done|]. by rewrite IH.
Qed.

(** X19: where the thumbnail address of a stream is a template with one
    ["{width}"] followed by one ["{height}"] and no other brace, the picture
    of the "now live" message is that address at 1920 by 1080; the message
    links to the channel by its display name and is titled like the
    stream. *)
Theorem createDiscordEmbedMessage_picture t (p m q : string) :
  ThumbnailURL t
  = String.append p (String.append "{width}" (String.append m (String.append "{height}" q))) →
  hasChar brace p = false → hasChar brace m = false →
  hasChar brace q = false →
  embedImageURL (createDiscordEmbedMessage t)
  = String.append p (String.append "1920" (String.append m (String.append "1080" q)))
  ∧ embedURL (createDiscordEmbedMessage t)
    = String.append "https://www.twitch.tv/" (DisplayName t)
  ∧ embedTitle (createDiscordEmbedMessage t) = StreamTitle t
  ∧ embedAuthorName (createDiscordEmbedMessage t) = DisplayName t
  ∧ embedAuthorIconURL (createDiscordEmbedMessage t) = LogoURL t.
Proof.
  intros Hurl Hp Hm Hq. split; [|done].
  unfold createDiscordEmbedMessage. simpl. rewrite Hurl. unfold Replace.
  rewrite (replaceFrom_at brace "width}" "1920" p _ Hp).
  assert (Hrest : replaceFrom "{width}" "1920" 0
                    (String.append m (String.append "{height}" q))
                  = String.append m (String.append "{height}" q)).
  { clear Hurl. induction m as [|ch m IH].
    - rewrite append_nil_l.
      change (String.append "{height}" q) with (String brace (String.append "height}" q)).
      rewrite replaceFrom_cons_no_prefix by reflexivity. f_equal.
      apply (replaceFrom_no_first brace "width}" "1920").
      by rewrite hasChar_append, Hq.
    - simpl in Hm. apply orb_false_elim in Hm as [Hch Hm].
      apply bool_decide_eq_false in Hch. rewrite append_cons.
      rewrite replaceFrom_cons_no_prefix
        by (apply prefix_cons_ne; intros <-; by apply Hch).
      by rewrite IH. }
  change (String brace "width}") with "{width}". rewrite Hrest.
  rewrite <- (append_assoc "1920" m), <- (append_assoc p).
  rewrite (replaceFrom_at brace "height}" "1080" _ q).
  - rewrite (replaceFrom_no_first brace "height}" "1080" q Hq).
    by rewrite !append_assoc.
  - rewrite !hasChar_append, Hp, Hm. reflexivity.
Qed.

Lemma createDiscordEmbedMessage_picture_witness :
  embedImageURL (createDiscordEmbedMessage exampleLiveInfo) = "http://t/1920x1080.jpg".
Proof.
  apply (createDiscordEmbedMessage_picture exampleLiveInfo "http://t/" "x" ".jpg");
    reflexivity.
Defined.

(** ** Delivery of the live notification *)


